(** * VMU931 drivers: frame scanning, payload decoding, reconfiguration

    A shallow embedding of the two drivers of the repository,
    [vmu931_cdc_driver.py] (USB bulk endpoint, chunked buffer scanning) and
    [vmu931_driver.py] (serial port, byte-at-a-time reading), followed by
    the properties of the protocol layer.

    Conventions of the embedding.
    - A byte of a [bytes]/[bytearray] object is a [Byte.byte]; [ord] gives
      the integer Python sees when it indexes or iterates the object.
    - Python integers are [Z]; indexing and slicing follow Python's rules
      for negative and out-of-range positions ([Py.index], [Py.slice]).
    - The source compares with [is], which is object identity.  For the
      integers 0 to 255 that a bytearray yields and the literals [0x01] and
      [0x04] CPython keeps one object per value, so [is] on them is
      equality.  For a one-character string built by [chr] and the string
      of a literal of the source it is the interpreter that decides whether
      the two are one object; the drivers take that decision as a
      parameter, [same_object] (see [Py.identity]).
    - A raised exception is a value of [exn]; code that may raise returns
      a [result]. *)

From Stdlib Require Import ZArith List Bool Lia.
From Stdlib Require Import Strings.String Strings.Ascii Strings.Byte.
From Stdlib Require Import Numbers.DecimalString.
From Stdlib Require Import Floats.SpecFloat.
Import ListNotations.

Local Open Scope Z_scope.

(** ** Python primitives used by the drivers *)

Module Py.

Inductive exn : Type :=
| IndexError
| KeyError
| ValueError
| StructError      (* struct.error *)
| TransportError.  (* whatever the USB or serial layer raises *)

Inductive result (A : Type) : Type :=
| Ok (a : A)
| Raise (e : exn).

Arguments Ok {A} a.
Arguments Raise {A} e.

Definition ord (b : byte) : Z := Z.of_N (Byte.to_N b).

Definition chr (b : byte) : ascii := ascii_of_byte b.

Definition len {A} (l : list A) : Z := Z.of_nat (List.length l).

(** [l[k]]: a negative [k] counts from the end, a position outside the
    object raises IndexError ([None] here). *)
Definition index {A} (l : list A) (k : Z) : option A :=
  let k' := if k <? 0 then k + len l else k in
  if (0 <=? k') && (k' <? len l) then nth_error l (Z.to_nat k') else None.

(** Normalisation of one bound of a slice of step 1. *)
Definition clamp (n k : Z) : Z :=
  if k <? 0 then Z.max (k + n) 0 else Z.min k n.

(** [l[lo:hi]] *)
Definition slice {A} (l : list A) (lo hi : Z) : list A :=
  let a := clamp (len l) lo in
  let b := clamp (len l) hi in
  firstn (Z.to_nat (b - a)) (skipn (Z.to_nat a) l).

(** [l[lo:]] *)
Definition slice_from {A} (l : list A) (lo : Z) : list A :=
  skipn (Z.to_nat (clamp (len l) lo)) l.

(** [l[:hi]] *)
Definition slice_to {A} (l : list A) (hi : Z) : list A :=
  firstn (Z.to_nat (clamp (len l) hi)) l.

(** Big-endian unsigned integer held by a byte string
    ([int.from_bytes(bs, 'big')]). *)
Definition be_uint (bs : list byte) : Z :=
  fold_left (fun acc b => acc * 256 + ord b) bs 0.

(** The value denoted by a 32-bit word read as an IEEE-754 binary32:
    sign in bit 31, biased exponent in bits 30..23, fraction in bits
    22..0.  [struct.unpack] widens it to a Python float without changing
    the value. *)
Definition b32_of_bits (w : Z) : spec_float :=
  let s := Z.testbit w 31 in
  let e := Z.land (Z.shiftr w 23) 255 in
  let m := Z.land w (2 ^ 23 - 1) in
  if e =? 0 then
    match m with
    | Zpos p => S754_finite s p (-149)
    | _ => S754_zero s
    end
  else if e =? 255 then
    match m with
    | Z0 => S754_infinity s
    | _ => S754_nan
    end
  else
    match m + 2 ^ 23 with
    | Zpos p => S754_finite s p (e - 150)
    | _ => S754_nan
    end.

(** [struct.unpack(">Ifff", buf)]: the buffer must hold exactly the 16
    bytes of the format. *)
Definition unpack_Ifff (buf : list byte)
  : result (Z * spec_float * spec_float * spec_float) :=
  if (List.length buf =? 16)%nat then
    Ok (be_uint (firstn 4 buf),
        b32_of_bits (be_uint (firstn 4 (skipn 4 buf))),
        b32_of_bits (be_uint (firstn 4 (skipn 8 buf))),
        b32_of_bits (be_uint (firstn 4 (skipn 12 buf))))
  else Raise StructError.

(** [struct.unpack(">BBBI", buf)]: exactly 7 bytes. *)
Definition unpack_BBBI (buf : list byte) : result (Z * Z * Z * Z) :=
  match buf with
  | [b0; b1; b2; b3; b4; b5; b6] =>
      Ok (ord b0, ord b1, ord b2, be_uint [b3; b4; b5; b6])
  | _ => Raise StructError
  end.

(** A dict with string keys, as an association list; [d[k]] raises
    KeyError when the key is absent. *)
Fixpoint getitem {V} (d : list (string * V)) (k : string) : result V :=
  match d with
  | [] => Raise KeyError
  | (k', v) :: d' => if String.eqb k k' then Ok v else getitem d' k
  end.

(** A dict with integer keys; [d.get(k)] and [k in d.keys()]. *)
Fixpoint get {V} (d : list (Z * V)) (k : Z) : option V :=
  match d with
  | [] => None
  | (k', v) :: d' => if k =? k' then Some v else get d' k
  end.

(** [x is y] for the one-character string [x] that [chr] has built and
    the string [y] of a literal of the source.  The language only
    guarantees that one object has one value ([sound]); which equal
    strings are one object depends on the interpreter and on what it has
    interned. *)
Definition identity : Type := ascii -> ascii -> bool.

Definition sound (same_object : identity) : Prop :=
  forall a b, same_object a b = true -> a = b.

(** What CPython 3.11.2 answers for the literals of the two drivers:
    [chr(c) is 'g'] holds for [c = 0x67], and for none of the literals
    ['e'], ['c'], ['a'] and ['s'] is the string [chr] builds the object of
    the literal. *)
Definition cpython311 : identity :=
  fun a b => Ascii.eqb a b && Ascii.eqb b "g".

(** ['{}'.format(n)] for an integer. *)
Definition format_int (n : Z) : string :=
  NilZero.string_of_int (Z.to_int n).

End Py.

Import Py.

(** The tuple [(ts, x, y, z)] both drivers return for a motion message. *)
Definition motion : Type := Z * spec_float * spec_float * spec_float.

(** What both drivers do with the payload of a motion message:
    [struct.unpack(">Ifff", message[:16])]. *)
Definition decode_motion (message : list byte) : result motion :=
  unpack_Ifff (slice_to message 16).

(** ** The USB driver: [vmu931_cdc_driver.py] *)

Module VMU931CDCDriver.

Definition message_types : list (string * ascii) :=
  [("gyro"%string, "g"%char); ("euler"%string, "e"%char);
   ("magnet"%string, "c"%char); ("accel"%string, "a"%char)].

(** How one turn of the [for i, c in enumerate(data)] loop ends. *)
Inductive body_result : Type :=
| BContinue (data : list byte)   (* next turn, [data] possibly rebound *)
| BBreak (data : list byte)      (* [break] *)
| BReturn (t : motion)           (* [return (ts, x, y, z)] *)
| BRaise (e : exn).              (* an exception leaves the function *)

(** The four assignments under [try:].  [None] stands for the bare
    [except:] being taken; only the last subscript can be out of range
    once the guard of the candidate has passed, but each is checked. *)
Definition try_block (data : list byte) (i : Z)
  : option (Z * ascii * list byte * byte) :=
  match index data (i + 1) with
  | None => None
  | Some b1 =>
      let message_size := ord b1 - 4 in
      match index data (i + 2) with
      | None => None
      | Some b2 =>
          let message_type := chr b2 in
          let message := slice data (i + 3) (i + 3 + message_size) in
          match index data (i + 3 + message_size) with
          | None => None
          | Some message_end =>
              Some (message_size, message_type, message, message_end)
          end
      end
  end.

Section Interpreter.

Variable same_object : identity.

(** [message_end is 0x04 and message_type is message_types[m_type]]:
    the dict is only consulted when the terminator matches, and the type
    is wanted when the interpreter finds the string of [chr] to be the
    object the dict holds. *)
Definition frame_wanted (m_type : string) (message_type : ascii)
    (message_end : byte) : result bool :=
  if ord message_end =? 4 then
    match getitem message_types m_type with
    | Ok t => Ok (same_object message_type t)
    | Raise e => Raise e
    end
  else Ok false.

(** One turn of the scan loop, for the pair [(i, c)] the enumeration
    yields and the object [data] names at that moment.  [message_end] has
    just been assigned an integer when the [else] branch tests it against
    [None], so the buffer is always rebound to the slice there. *)
Definition loop_body (m_type : string) (i : Z) (c : byte)
    (data : list byte) : body_result :=
  if (ord c =? 1) && (20 <? len (slice_from data i)) then
    match try_block data i with
    | None => BBreak []
    | Some (message_size, message_type, message, message_end) =>
        match frame_wanted m_type message_type message_end with
        | Raise e => BRaise e
        | Ok true =>
            match decode_motion message with
            | Ok t => BReturn t
            | Raise e => BRaise e
            end
        | Ok false => BContinue (slice_from data (i + 3 + message_size))
        end
    end
  else BContinue data.

(** How the whole [for] loop ends. *)
Inductive scan_result : Type :=
| Next (data : list byte)        (* loop left, by exhaustion or [break] *)
| Returned (t : motion)
| Raised (e : exn).

(** The [for] loop.  [enumerate(data)] is evaluated once: [it] is what is
    left of the object the loop started on and [i] the running index,
    while [data] is whatever the variable names now.  Rebinding [data] in
    the body does not change what is enumerated. *)
Fixpoint for_loop (m_type : string) (it : list byte) (i : Z)
    (data : list byte) : scan_result :=
  match it with
  | [] => Next data
  | c :: it' =>
      match loop_body m_type i c data with
      | BContinue data' => for_loop m_type it' (i + 1) data'
      | BBreak data' => Next data'
      | BReturn t => Returned t
      | BRaise e => Raised e
      end
  end.

(** One scan of the accumulated buffer. *)
Definition scan (m_type : string) (data : list byte) : scan_result :=
  for_loop m_type data 0 data.

(** The endpoint: the [n]-th call of [reader.read(64)] yields [reader n],
    a chunk of bytes or an exception of the USB layer. *)
Definition reader : Type := nat -> result (list byte).

(** How a call of [get_vmu_packet] ends: [Value None] is Python's bare
    [return]. *)
Inductive outcome : Type :=
| Value (r : option motion)
| Exception (e : exn).

(** The [while True] loop, with the number [n] of reads done so far.
    [fuel] bounds the turns of the model; [None] means it ran out. *)
Fixpoint while_loop (fuel : nat) (rd : reader) (m_type : string)
    (n : nat) (iter_count : Z) (data : list byte) : option (outcome * nat) :=
  match fuel with
  | O => None
  | S fuel' =>
      let iter_count := iter_count + 1 in
      if iter_count >? 5000 then Some (Value None, n)
      else
        match rd n with
        | Raise e => Some (Exception e, S n)
        | Ok chunk =>
            match scan m_type (data ++ chunk) with
            | Next data' => while_loop fuel' rd m_type (S n) iter_count data'
            | Returned t => Some (Value (Some t), S n)
            | Raised e => Some (Exception e, S n)
            end
        end
  end.

(** [get_vmu_packet]; [device] is [false] when [self.device is None]. *)
Definition get_vmu_packet_fuel (fuel : nat) (device : bool) (rd : reader)
    (m_type : string) : option (outcome * nat) :=
  if negb device then Some (Value None, O)
  else while_loop fuel rd m_type 0 0 [].

(** 5001 turns are all the loop can take (see [while_loop_terminates]). *)
Definition get_vmu_packet (device : bool) (rd : reader) (m_type : string)
  : option (outcome * nat) :=
  get_vmu_packet_fuel (Z.to_nat 5001) device rd m_type.

End Interpreter.

End VMU931CDCDriver.

(** ** The serial driver: [vmu931_driver.py] *)

Module VMU931Driver.

Definition gyro_resolutions : list (Z * Z) :=
  [(250, 0); (500, 1); (1000, 2); (2000, 3)].

Definition accelerometer_resolutions : list (Z * Z) :=
  [(2, 4); (4, 5); (8, 6); (16, 7)].

(** The configuration dict.  The keys are fixed; a value the source
    leaves at [None] is [None] here. *)
Record configuration : Type := {
  magnetometer_enabled : option bool;
  gyroscope_enabled : option bool;
  accelerometer_enabled : option bool;
  gyroscope_resolution : option Z;
  accelerometer_resolution : option Z;
  low_output_rate : option bool;
  heading_streaming : bool;
  euler_streaming : bool;
  magnetometer_streaming : bool;
  quaternion_streaming : bool;
  gyroscope_streaming : bool;
  accelerometer_streaming : bool
}.

Definition basic_configuration : configuration := {|
  magnetometer_enabled := None;
  gyroscope_enabled := None;
  accelerometer_enabled := None;
  gyroscope_resolution := Some 2000;
  accelerometer_resolution := Some 2;
  low_output_rate := None;
  heading_streaming := false;
  euler_streaming := false;
  magnetometer_streaming := false;
  quaternion_streaming := false;
  gyroscope_streaming := true;
  accelerometer_streaming := false
|}.

Definition message_types : list (string * ascii) :=
  [("gyro"%string, "g"%char); ("euler"%string, "e"%char);
   ("magnet"%string, "c"%char); ("accel"%string, "a"%char)].

(** *** The port

    The line delivers [rx k] to the [k]-th one-byte wait: a byte, or
    nothing when the read timeout expires first.  [pos] counts the waits
    done, [tx] is what has been written, oldest first. *)
Record port : Type := {
  rx : nat -> option byte;
  pos : nat;
  tx : list string
}.

(** Code that uses the port and may raise. *)
Definition M (A : Type) : Type := port -> result A * port.

Definition ret {A} (a : A) : M A := fun p => (Ok a, p).

Definition raise {A} (e : exn) : M A := fun p => (Raise e, p).

Definition bind {A B} (m : M A) (k : A -> M B) : M B :=
  fun p =>
    match m p with
    | (Ok a, p') => k a p'
    | (Raise e, p') => (Raise e, p')
    end.

Notation "x <- m ;; k" := (bind m (fun x => k))
  (at level 61, m at next level, right associativity).
Notation "m ;;; k" := (bind m (fun _ => k))
  (at level 61, right associativity).

(** [if b: m] *)
Definition when (b : bool) (m : M unit) : M unit :=
  if b then m else ret tt.

(** [port.write(message.encode('ASCII'))] on a port that takes the
    write.  A port that cannot be opened or written to is the transport's
    failure and lies outside the model: [send_message] only logs what
    [port.write] raises and raises it again. *)
Definition write (message : string) : M unit :=
  fun p => (Ok tt, {| rx := rx p; pos := pos p; tx := tx p ++ [message] |}).

(** [port.read(size)]: waits for [size] bytes and returns early, with
    what it has, when a wait times out. *)
Fixpoint read_bytes (size : nat) (p : port) : list byte * port :=
  match size with
  | O => ([], p)
  | S size' =>
      let p' := {| rx := rx p; pos := S (pos p); tx := tx p |} in
      match rx p (pos p) with
      | None => ([], p')
      | Some b => let (bs, p'') := read_bytes size' p' in (b :: bs, p'')
      end
  end.

Definition read (size : Z) : M (list byte) :=
  fun p => let (bs, p') := read_bytes (Z.to_nat size) p in (Ok bs, p').

(** [port.read()[0]]: IndexError on an empty read. *)
Definition read_first : M byte :=
  bs <- read 1 ;;
  match index bs 0 with
  | Some b => ret b
  | None => raise IndexError
  end.

Definition send_message (message : string) : M unit :=
  if (String.length message =? 0)%nat then raise ValueError
  else write message.

Definition set_gyro_resolution (resolution : option Z) : M unit :=
  match resolution with
  | None => raise ValueError
  | Some r =>
      match get gyro_resolutions r with
      | None => raise ValueError
      | Some code => send_message ("var" ++ format_int code)
      end
  end.

Definition set_accelerometer_resolution (resolution : option Z) : M unit :=
  match resolution with
  | None => raise ValueError
  | Some r =>
      match get accelerometer_resolutions r with
      | None => raise ValueError
      | Some code => send_message ("var" ++ format_int code)
      end
  end.

(** [set_configuration]; an argument is [None] when the caller passes
    Python's [None]. *)
Definition set_configuration
    (current_configuration new_configuration : option configuration)
  : M unit :=
  match current_configuration, new_configuration with
  | Some cur, Some new =>
      set_gyro_resolution (gyroscope_resolution new) ;;;
      set_accelerometer_resolution (accelerometer_resolution new) ;;;
      when (xorb (accelerometer_streaming cur) (accelerometer_streaming new))
           (send_message "vara") ;;;
      when (xorb (gyroscope_streaming cur) (gyroscope_streaming new))
           (send_message "varg") ;;;
      when (xorb (magnetometer_streaming cur) (magnetometer_streaming new))
           (send_message "varc") ;;;
      when (xorb (quaternion_streaming cur) (quaternion_streaming new))
           (send_message "varq") ;;;
      when (xorb (euler_streaming cur) (euler_streaming new))
           (send_message "vare") ;;;
      when (xorb (heading_streaming cur) (heading_streaming new))
           (send_message "varh")
  | _, _ => raise ValueError
  end.

Section Interpreter.

Variable same_object : identity.

(** [get_message].  Both [continue]s of the source lead back to the
    inner wait for a start marker, so one turn of the model is: read one
    byte and, when it is 0x01, read the rest of the frame.  The port is
    reopened at every turn of the outer loop; the model lets the line go
    on where it was.  [None]: the loops are still running when [fuel]
    turns have been taken. *)
Fixpoint get_message_loop (fuel : nat) (wanted : ascii) (p : port)
  : option (result motion * port) :=
  match fuel with
  | O => None
  | S fuel' =>
      let turn : M (option motion) :=
        c <- read_first ;;
        if negb (ord c =? 1) then ret None
        else
          b1 <- read_first ;;
          let message_size := ord b1 - 4 in
          b2 <- read_first ;;
          let message_type := chr b2 in
          message <- read message_size ;;
          message_end <- read_first ;;
          if negb (ord message_end =? 4) then ret None
          else if negb (same_object message_type wanted) then ret None
          else
            match decode_motion message with
            | Ok t => ret (Some t)
            | Raise e => raise e
            end
      in
      match turn p with
      | (Ok None, p') => get_message_loop fuel' wanted p'
      | (Ok (Some t), p') => Some (Ok t, p')
      | (Raise e, p') => Some (Raise e, p')
      end
  end.

Definition get_message (fuel : nat) (m_type : string) (p : port)
  : option (result motion * port) :=
  match getitem message_types m_type with
  | Raise _ => Some (Raise ValueError, p)
  | Ok wanted => get_message_loop fuel wanted p
  end.

Definition bit_set (x mask : Z) : bool := negb (Z.land x mask =? 0).

(** [_parse_status_message] *)
Definition _parse_status_message (message : list byte)
  : result configuration :=
  match unpack_BBBI (slice_to message 7) with
  | Raise e => Raise e
  | Ok (status, res, low_output, data) =>
      let mag_status := bit_set status 4 in
      let gyro_status := bit_set status 2 in
      let acc_status := bit_set status 1 in
      let gyro_res :=
        if bit_set res 128 then Some 2000
        else if bit_set res 64 then Some 1000
        else if bit_set res 32 then Some 500
        else if bit_set res 16 then Some 250
        else None in
      let acc_res :=
        if bit_set res 8 then Some 16
        else if bit_set res 4 then Some 8
        else if bit_set res 2 then Some 4
        else if bit_set res 1 then Some 2
        else None in
      let low_output_rate := bit_set low_output 1 in
      let heading_streaming := bit_set data 64 in
      let euler_streaming := bit_set data 16 in
      let mag_streaming := bit_set data 8 in
      let quat_streaming := bit_set data 4 in
      let gyro_streaming := bit_set data 2 in
      let acc_streaming := bit_set data 1 in
      Ok {| magnetometer_enabled := Some mag_status;
            gyroscope_enabled := Some gyro_status;
            accelerometer_enabled := Some acc_status;
            gyroscope_resolution := gyro_res;
            accelerometer_resolution := acc_res;
            low_output_rate := Some low_output_rate;
            heading_streaming := heading_streaming;
            euler_streaming := euler_streaming;
            magnetometer_streaming := mag_streaming;
            quaternion_streaming := quat_streaming;
            gyroscope_streaming := gyro_streaming;
            accelerometer_streaming := acc_streaming |}
  end.

(** [_ask_for_status] *)
Definition _ask_for_status : M unit := send_message "vars".

(** How one pass through the loops of [get_configuration] ends. *)
Inductive config_step : Type :=
| Wait                           (* inner [continue]: no start marker yet *)
| Again                          (* back to the head of the outer loop *)
| Done (status : configuration). (* [return status] *)

(** [get_configuration].  The status request is written at the head of
    every turn of the outer loop and not inside the inner wait for a
    start marker: [asked] tells that the turn has already written it.  A
    frame that is not a status frame falls off the end of the loop body,
    which starts the outer loop again.  As in [get_message_loop], one
    turn of the model reads one candidate start byte, the line goes on
    over the reopening of the port, and [None] means the loops are still
    running after [fuel] turns. *)
Fixpoint get_configuration_loop (fuel : nat) (asked : bool) (p : port)
  : option (result configuration * port) :=
  match fuel with
  | O => None
  | S fuel' =>
      let turn : M config_step :=
        (if asked then ret tt else _ask_for_status) ;;;
        c <- read_first ;;
        if negb (ord c =? 1) then ret Wait
        else
          b1 <- read_first ;;
          let message_size := ord b1 - 4 in
          b2 <- read_first ;;
          let message_type := chr b2 in
          message <- read message_size ;;
          message_end <- read_first ;;
          if negb (ord message_end =? 4) then ret Again
          else if same_object message_type "s"%char then
            match _parse_status_message message with
            | Ok status => ret (Done status)
            | Raise e => raise e
            end
          else ret Again
      in
      match turn p with
      | (Ok Wait, p') => get_configuration_loop fuel' true p'
      | (Ok Again, p') => get_configuration_loop fuel' false p'
      | (Ok (Done status), p') => Some (Ok status, p')
      | (Raise e, p') => Some (Raise e, p')
      end
  end.

Definition get_configuration (fuel : nat) (p : port)
  : option (result configuration * port) :=
  get_configuration_loop fuel false p.

(** [__init__]: read the status of the device, then move it to the
    basic configuration. *)
Definition __init__ (fuel : nat) (p : port) : option (result unit * port) :=
  match get_configuration fuel p with
  | None => None
  | Some (Raise e, p') => Some (Raise e, p')
  | Some (Ok driverstatus, p') =>
      Some (set_configuration (Some driverstatus) (Some basic_configuration)
              p')
  end.

End Interpreter.

End VMU931Driver.

(** * Vocabulary of the statements *)

Section ScannerVocabulary.

Import VMU931CDCDriver.

Variable same_object : identity.

(** A frame as it travels: start marker, declared length, type tag,
    payload, terminator. *)
Definition frame (declared_length tag : byte) (payload : list byte)
  : list byte :=
  [x01; declared_length; tag] ++ payload ++ [x04].

(** The buffer the USB driver holds after [k] reads, provided none of
    the [k] scans returned or raised and no read failed. *)
Fixpoint buffer_after (rd : reader) (m_type : string) (k : nat)
  : option (list byte) :=
  match k with
  | O => Some []
  | S k' =>
      match buffer_after rd m_type k' with
      | None => None
      | Some data =>
          match rd k' with
          | Raise _ => None
          | Ok chunk =>
              match scan same_object m_type (data ++ chunk) with
              | Next data' => Some data'
              | _ => None
              end
          end
      end
  end.

End ScannerVocabulary.

Section SerialVocabulary.

Import VMU931Driver.

(** A line on which 0x00 arrives forever. *)
Definition zero_line (n : nat) (written : list string) : port :=
  {| rx := fun _ => Some x00; pos := n; tx := written |}.

(** The toggle for one streaming flag, in the words of the design: sent
    exactly when the current and the desired value differ. *)
Definition toggle (cur new : configuration) (flag : configuration -> bool)
    (command : string) : list string :=
  if xorb (flag cur) (flag new) then [command] else [].

(** The toggles of a reconfiguration, in the order of the design. *)
Definition toggle_commands (cur new : configuration) : list string :=
  toggle cur new accelerometer_streaming "vara" ++
  toggle cur new gyroscope_streaming "varg" ++
  toggle cur new magnetometer_streaming "varc" ++
  toggle cur new quaternion_streaming "varq" ++
  toggle cur new euler_streaming "vare" ++
  toggle cur new heading_streaming "varh".

(** The port after [commands] have been written to it. *)
Definition sent (p : port) (commands : list string) : port :=
  {| rx := rx p; pos := pos p; tx := tx p ++ commands |}.

(** A port nothing arrives on and nothing has been written to. *)
Definition idle_port : port := {| rx := fun _ => None; pos := 0; tx := [] |}.

(** A desired configuration that differs from the basic one in three
    streaming flags. *)
Definition accel_and_heading : configuration :=
  {| magnetometer_enabled := None;
     gyroscope_enabled := None;
     accelerometer_enabled := None;
     gyroscope_resolution := Some 500;
     accelerometer_resolution := Some 16;
     low_output_rate := None;
     heading_streaming := true;
     euler_streaming := false;
     magnetometer_streaming := false;
     quaternion_streaming := false;
     gyroscope_streaming := false;
     accelerometer_streaming := true |}.

(** The byte at offset [k] of a payload, as an integer. *)
Definition byte_at (payload : list byte) (k : nat) : Z :=
  ord (nth k payload x00).

(** The big-endian 32-bit word at offsets [k] to [k + 3]. *)
Definition word_at (payload : list byte) (k : nat) : Z :=
  byte_at payload k * 2 ^ 24 + byte_at payload (k + 1) * 2 ^ 16 +
  byte_at payload (k + 2) * 2 ^ 8 + byte_at payload (k + 3).

(** The two [if]/[elif] chains of the parser on the resolution byte,
    named so that statements can speak of them. *)
Definition gyro_chain (res : Z) : option Z :=
  if bit_set res 128 then Some 2000
  else if bit_set res 64 then Some 1000
  else if bit_set res 32 then Some 500
  else if bit_set res 16 then Some 250
  else None.

Definition acc_chain (res : Z) : option Z :=
  if bit_set res 8 then Some 16
  else if bit_set res 4 then Some 8
  else if bit_set res 2 then Some 4
  else if bit_set res 1 then Some 2
  else None.

(** The layout of the status payload: which bit of which byte each field
    of the configuration comes from. *)
Definition status_layout (message : list byte) (cfg : configuration) : Prop :=
  let b := byte_at message in
  let w := word_at message 3 in
  magnetometer_enabled cfg = Some (Z.testbit (b 0%nat) 2) /\
  gyroscope_enabled cfg = Some (Z.testbit (b 0%nat) 1) /\
  accelerometer_enabled cfg = Some (Z.testbit (b 0%nat) 0) /\
  (Z.shiftr (b 1%nat) 4 = 8 -> gyroscope_resolution cfg = Some 2000) /\
  (Z.shiftr (b 1%nat) 4 = 4 -> gyroscope_resolution cfg = Some 1000) /\
  (Z.shiftr (b 1%nat) 4 = 2 -> gyroscope_resolution cfg = Some 500) /\
  (Z.shiftr (b 1%nat) 4 = 1 -> gyroscope_resolution cfg = Some 250) /\
  (Z.land (b 1%nat) 15 = 8 -> accelerometer_resolution cfg = Some 16) /\
  (Z.land (b 1%nat) 15 = 4 -> accelerometer_resolution cfg = Some 8) /\
  (Z.land (b 1%nat) 15 = 2 -> accelerometer_resolution cfg = Some 4) /\
  (Z.land (b 1%nat) 15 = 1 -> accelerometer_resolution cfg = Some 2) /\
  low_output_rate cfg = Some (Z.testbit (b 2%nat) 0) /\
  heading_streaming cfg = Z.testbit w 6 /\
  euler_streaming cfg = Z.testbit w 4 /\
  magnetometer_streaming cfg = Z.testbit w 3 /\
  quaternion_streaming cfg = Z.testbit w 2 /\
  gyroscope_streaming cfg = Z.testbit w 1 /\
  accelerometer_streaming cfg = Z.testbit w 0.

(** The scenario payload 0x07 0x20 0x01 0x00000002. *)
Definition scenario_status : list byte := [x07; x20; x01; x00; x00; x00; x02].

(** Priority decoding of the four bits [lo .. lo + 3] of [res]: the
    highest set bit [k] decides and gives [value k]; no bit set gives
    unknown. *)
Definition priority_decoding (res lo : Z) (value : Z -> Z) (r : option Z)
  : Prop :=
  (forall k, lo <= k <= lo + 3 -> Z.testbit res k = true ->
             (forall j, k < j <= lo + 3 -> Z.testbit res j = false) ->
             r = Some (value k)) /\
  ((forall k, lo <= k <= lo + 3 -> Z.testbit res k = false) -> r = None).

(** The port after [k] more one-byte waits. *)
Definition advance (p : port) (k : nat) : port :=
  {| rx := rx p; pos := k + pos p; tx := tx p |}.

(** The line is about to deliver [bytes], one after the other and each
    in time. *)
Definition delivers (p : port) (bytes : list byte) : Prop :=
  forall k b, nth_error bytes k = Some b -> rx p (k + pos p) = Some b.

(** The command strings [set_configuration] can write. *)
Definition reconfiguration_commands : list string :=
  ["var0"; "var1"; "var2"; "var3"; "var4"; "var5"; "var6"; "var7";
   "vara"; "varg"; "varc"; "varq"; "vare"; "varh"]%string.

(** The digit [set_gyro_resolution] and [set_accelerometer_resolution]
    look up for a resolution: [None] when the resolution is no key of the
    table, which is when they raise. *)
Definition resolution_code (table : list (Z * Z)) (resolution : option Z)
  : option Z :=
  match resolution with
  | None => None
  | Some r => get table r
  end.

(** The port after the status request of a turn of the outer loop, when
    the turn still had to write it. *)
Definition asked_port (asked : bool) (p : port) : port :=
  if asked then p else sent p ["vars"%string].

End SerialVocabulary.

(** * Properties *)

(** ** Bytes, subscripts and slices *)

Section PyFacts.

Context {A : Type}.
Implicit Types (l pre mid post : list A) (k : Z).

Lemma len_nonneg l : 0 <= len l.
Proof. unfold len; lia. Qed.

Lemma len_app l1 l2 : len (l1 ++ l2) = len l1 + len l2.
Proof. unfold len; rewrite length_app; lia. Qed.

Lemma len_cons (a : A) l : len (a :: l) = 1 + len l.
Proof. unfold len; cbn [List.length]; lia. Qed.

Lemma index_nth l k :
  0 <= k < len l -> index l k = nth_error l (Z.to_nat k).
Proof.
  intros [H0 H1]. unfold index.
  destruct (Z.ltb_spec k 0); [lia|].
  destruct (Z.leb_spec 0 k); [|lia].
  destruct (Z.ltb_spec k (len l)); [reflexivity|lia].
Qed.

Lemma index_out_of_range l k : len l <= k -> index l k = None.
Proof.
  intros H. pose proof (len_nonneg l). unfold index.
  destruct (Z.ltb_spec k 0); [lia|].
  destruct (Z.ltb_spec k (len l)); [lia|].
  now rewrite andb_false_r.
Qed.

Lemma index_app_r pre l k :
  0 <= k -> index (pre ++ l) (len pre + k) = index l k.
Proof.
  intros Hk. pose proof (len_nonneg pre).
  destruct (Z.lt_ge_cases k (len l)) as [Hlt|Hge].
  - rewrite !index_nth by (rewrite ?len_app; lia).
    rewrite nth_error_app2 by (unfold len in *; lia).
    f_equal. unfold len. lia.
  - rewrite !index_out_of_range by (rewrite ?len_app; lia). reflexivity.
Qed.

Lemma index_middle pre mid (x : A) post :
  index (pre ++ mid ++ x :: post) (len pre + len mid) = Some x.
Proof.
  rewrite index_app_r by apply len_nonneg.
  replace (len mid) with (len mid + 0) by lia.
  rewrite index_app_r by lia.
  reflexivity.
Qed.

Lemma slice_from_nonneg l k :
  0 <= k -> slice_from l k = skipn (Z.to_nat k) l.
Proof.
  intros Hk. unfold slice_from, clamp.
  destruct (Z.ltb_spec k 0); [lia|].
  destruct (Z.le_gt_cases k (len l)).
  - now rewrite Z.min_l by lia.
  - rewrite Z.min_r by lia.
    rewrite !skipn_all2; unfold len in *; try lia. reflexivity.
Qed.

Lemma slice_from_app pre l : slice_from (pre ++ l) (len pre) = l.
Proof.
  rewrite slice_from_nonneg by apply len_nonneg.
  unfold len. rewrite Nat2Z.id, skipn_app, skipn_all, Nat.sub_diag.
  reflexivity.
Qed.

Lemma slice_middle pre mid post :
  slice (pre ++ mid ++ post) (len pre) (len pre + len mid) = mid.
Proof.
  pose proof (len_nonneg pre). pose proof (len_nonneg mid).
  pose proof (len_nonneg post).
  unfold slice, clamp. rewrite !len_app.
  destruct (Z.ltb_spec (len pre) 0); [lia|].
  destruct (Z.ltb_spec (len pre + len mid) 0); [lia|].
  rewrite !Z.min_l by lia.
  replace (len pre + len mid - len pre) with (len mid) by lia.
  unfold len. rewrite !Nat2Z.id, skipn_app, skipn_all, Nat.sub_diag.
  simpl. rewrite firstn_app, firstn_all, Nat.sub_diag. simpl.
  apply app_nil_r.
Qed.

Lemma slice_to_short l k : len l <= k -> slice_to l k = l.
Proof.
  intros H. pose proof (len_nonneg l). unfold slice_to, clamp.
  destruct (Z.ltb_spec k 0); [lia|].
  rewrite Z.min_r by lia. unfold len. rewrite Nat2Z.id. apply firstn_all.
Qed.

Lemma len_slice_to l k : 0 <= k <= len l -> len (slice_to l k) = k.
Proof.
  intros H. unfold slice_to, clamp.
  destruct (Z.ltb_spec k 0); [lia|].
  rewrite Z.min_l by lia. unfold len in *. rewrite length_firstn. lia.
Qed.

End PyFacts.

Lemma ord_range (b : byte) : 0 <= ord b <= 255.
Proof.
  unfold ord. pose proof (Byte.to_N_bounded b). lia.
Qed.

Lemma ord_inj (b c : byte) : ord b = ord c -> b = c.
Proof.
  unfold ord. intros H. apply N2Z.inj in H.
  pose proof (Byte.of_to_N b) as Hb. rewrite H, Byte.of_to_N in Hb.
  now injection Hb.
Qed.

Lemma ord_eqb (b c : byte) : (ord b =? ord c) = true <-> b = c.
Proof.
  rewrite Z.eqb_eq. split; [apply ord_inj | now intros ->].
Qed.

Lemma cpython311_sound : sound cpython311.
Proof.
  intros a b H. unfold cpython311 in H.
  apply andb_true_iff in H. destruct H as [H _]. now apply Ascii.eqb_eq.
Qed.

(** A string that is not the object of the literal it equals is the
    object of no literal of that value. *)
Lemma never_same (same_object : identity) (wanted : ascii) :
  sound same_object ->
  same_object wanted wanted = false ->
  forall a, same_object a wanted = false.
Proof.
  intros Hsound Hnot a. destruct (same_object a wanted) eqn:E; [|reflexivity].
  pose proof (Hsound _ _ E) as Ea. subst a. congruence.
Qed.

(** ** The frame scanner of the USB driver *)

Section FrameScanner.

Import VMU931CDCDriver.

Variable same_object : identity.

Local Abbreviation frame_wanted := (frame_wanted same_object).
Local Abbreviation loop_body := (loop_body same_object).
Local Abbreviation for_loop := (for_loop same_object).
Local Abbreviation scan := (scan same_object).
Local Abbreviation while_loop := (while_loop same_object).
Local Abbreviation get_vmu_packet_fuel := (get_vmu_packet_fuel same_object).
Local Abbreviation get_vmu_packet := (get_vmu_packet same_object).
Local Abbreviation buffer_after := (buffer_after same_object).

Lemma nth_error_skipn_cons {A} (l : list A) (n : nat) (x : A) :
  nth_error l n = Some x -> skipn n l = x :: skipn (S n) l.
Proof.
  revert l. induction n as [|n IH]; intros [|a l] H; try discriminate.
  - now injection H as ->.
  - simpl in H. apply IH in H. simpl. exact H.
Qed.

Lemma index_skipn_cons {A} (l : list A) (k : Z) (x : A) :
  0 <= k -> index l k = Some x ->
  skipn (Z.to_nat k) l = x :: skipn (Z.to_nat (k + 1)) l.
Proof.
  intros Hk H.
  destruct (Z.lt_ge_cases k (len l)) as [Hlt|Hge].
  - rewrite index_nth in H by lia.
    replace (Z.to_nat (k + 1)) with (S (Z.to_nat k)) by lia.
    now apply nth_error_skipn_cons.
  - rewrite index_out_of_range in H by lia. discriminate.
Qed.

Lemma index_in_range {A} (l : list A) (k : Z) :
  0 <= k < len l -> exists x, index l k = Some x.
Proof.
  intros H. rewrite index_nth by exact H.
  destruct (nth_error l (Z.to_nat k)) eqn:E; [eauto|].
  apply nth_error_None in E. unfold len in H. lia.
Qed.

Lemma loop_body_not_marker m_type i c data :
  c <> x01 -> loop_body m_type i c data = BContinue data.
Proof.
  intros Hc. unfold loop_body.
  destruct (ord c =? 1) eqn:E; [|reflexivity].
  exfalso. apply Hc. apply ord_eqb. exact E.
Qed.

(** At a start marker with more than 20 bytes from it on, the guard of
    the candidate holds. *)
Lemma loop_body_candidate m_type i data :
  0 <= i -> 20 < len data - i ->
  loop_body m_type i x01 data =
    match try_block data i with
    | None => BBreak []
    | Some (message_size, message_type, message, message_end) =>
        match frame_wanted m_type message_type message_end with
        | Raise e => BRaise e
        | Ok true =>
            match decode_motion message with
            | Ok t => BReturn t
            | Raise e => BRaise e
            end
        | Ok false => BContinue (slice_from data (i + 3 + message_size))
        end
    end.
Proof.
  intros Hi Hlen. unfold loop_body.
  rewrite slice_from_nonneg by exact Hi.
  replace (20 <? len (skipn (Z.to_nat i) data)) with true; [reflexivity|].
  symmetry. apply Z.ltb_lt. unfold len in *. rewrite length_skipn. lia.
Qed.

(** A candidate that is not the wanted frame: the buffer is rebound to
    the slice that starts at the terminator position. *)
Lemma loop_body_unwanted m_type i data b1 b2 e :
  0 <= i -> 20 < len data - i ->
  index data (i + 1) = Some b1 ->
  index data (i + 2) = Some b2 ->
  0 <= i + ord b1 - 1 ->
  index data (i + ord b1 - 1) = Some e ->
  frame_wanted m_type (chr b2) e = Ok false ->
  loop_body m_type i x01 data =
    BContinue (e :: skipn (Z.to_nat (i + ord b1)) data).
Proof.
  intros Hi Hlen H1 H2 Hk He Hw.
  rewrite loop_body_candidate by assumption.
  assert (Hpos : i + 3 + (ord b1 - 4) = i + ord b1 - 1) by lia.
  unfold try_block. rewrite H1, H2. cbv beta iota zeta.
  rewrite Hpos, He. cbv beta iota. rewrite Hw, Hpos. f_equal.
  rewrite slice_from_nonneg by exact Hk.
  rewrite (index_skipn_cons _ _ _ Hk He).
  do 3 f_equal. lia.
Qed.

Lemma for_loop_skip m_type pre it i data :
  Forall (fun b => b <> x01) pre ->
  for_loop m_type (pre ++ it) i data = for_loop m_type it (i + len pre) data.
Proof.
  intros H. revert i. induction H as [|c pre Hc _ IH]; intros i.
  - simpl. f_equal. unfold len. simpl. lia.
  - simpl. rewrite loop_body_not_marker by exact Hc.
    rewrite IH. f_equal. rewrite len_cons. lia.
Qed.

Lemma decode_motion_long (payload : list byte) :
  16 <= len payload -> exists t, decode_motion payload = Ok t.
Proof.
  intros H. unfold decode_motion, unpack_Ifff.
  pose proof (len_slice_to payload 16) as Hl.
  unfold len in Hl at 2.
  replace (List.length (slice_to payload 16)) with 16%nat by lia.
  simpl. eauto.
Qed.

Lemma for_loop_cons m_type c it i data :
  for_loop m_type (c :: it) i data =
    match loop_body m_type i c data with
    | BContinue data' => for_loop m_type it (i + 1) data'
    | BBreak data' => Next data'
    | BReturn t => Returned t
    | BRaise e => Raised e
    end.
Proof. reflexivity. Qed.

Lemma frame_layout pre L T payload post :
  pre ++ frame L T payload ++ post
  = pre ++ [x01; L; T] ++ payload ++ x04 :: post.
Proof. unfold frame. now rewrite <- !app_assoc. Qed.

(** What the [try] block reads at the start marker of a frame. *)
Lemma try_block_frame pre L T payload post :
  ord L = len payload + 4 ->
  try_block (pre ++ frame L T payload ++ post) (len pre)
  = Some (len payload, chr T, payload, x04).
Proof.
  intros HL. rewrite frame_layout.
  pose proof (len_nonneg pre) as Hpre.
  pose proof (len_nonneg payload) as Hpay.
  set (data := pre ++ [x01; L; T] ++ payload ++ x04 :: post).
  assert (H1 : index data (len pre + 1) = Some L)
    by exact (index_middle pre [x01] L (T :: payload ++ x04 :: post)).
  assert (H2 : index data (len pre + 2) = Some T)
    by exact (index_middle pre [x01; L] T (payload ++ x04 :: post)).
  assert (H3 : index data (len pre + 3 + len payload) = Some x04).
  { replace (len pre + 3 + len payload)
      with (len pre + len ([x01; L; T] ++ payload))
      by (rewrite len_app; change (len [x01; L; T]) with 3; lia).
    exact (index_middle pre ([x01; L; T] ++ payload) x04 post). }
  assert (H4 : slice data (len pre + 3) (len pre + 3 + len payload) = payload).
  { replace (len pre + 3) with (len (pre ++ [x01; L; T]))
      by (rewrite len_app; reflexivity).
    unfold data. rewrite (app_assoc pre [x01; L; T]).
    apply slice_middle. }
  unfold try_block. rewrite H1, H2. cbv beta iota zeta.
  replace (ord L - 4) with (len payload) by lia.
  rewrite H3, H4. reflexivity.
Qed.

(** *** Recovering a frame *)

(** C1, as amended: when the buffer holds a frame of the wanted type
    whose payload has at least 16 bytes, with at least 20 bytes after its
    start marker, no byte before the start marker is itself 0x01, and the
    interpreter finds the tag string that [chr] builds to be the very
    object the dict holds for the wanted type, one scan of the buffer
    returns the decoding of the first 16 payload bytes. *)
Theorem scan_recovers_frame_after_marker_free_garbage
    (m_type : string) (L T : byte) (pre payload post : list byte) :
  getitem message_types m_type = Ok (chr T) ->
  same_object (chr T) (chr T) = true ->
  ord L = len payload + 4 ->
  20 <= len ([L; T] ++ payload ++ [x04] ++ post) ->
  16 <= len payload ->
  Forall (fun b => b <> x01) pre ->
  exists t, decode_motion payload = Ok t /\
            scan m_type (pre ++ frame L T payload ++ post) = Returned t.
Proof.
  intros Htag Hsame HL Hroom Hpay Hpre.
  destruct (decode_motion_long payload Hpay) as [t Ht].
  exists t. split; [exact Ht|].
  unfold scan.
  set (data := pre ++ frame L T payload ++ post).
  unfold data at 1. rewrite for_loop_skip by exact Hpre.
  unfold frame. cbn [app]. rewrite for_loop_cons.
  rewrite Z.add_0_l.
  assert (Hlen : 20 < len data - len pre).
  { unfold data. rewrite frame_layout, !len_app in *.
    change (len [x01; L; T]) with 3. change (len [L; T]) with 2 in Hroom.
    rewrite len_cons. change (len [x04]) with 1 in Hroom. lia. }
  rewrite loop_body_candidate by (auto using len_nonneg).
  unfold data. rewrite try_block_frame by exact HL.
  unfold frame_wanted. change (ord x04 =? 4) with true. cbv beta iota.
  rewrite Htag, Hsame, Ht. reflexivity.
Qed.

(** *** A start marker whose terminator position does not hold 0x04 *)

(** C2, as amended: at a candidate start marker (more than 20 bytes from
    it on) whose terminator position [i + declared_length - 1] is inside
    the buffer and holds a byte [e] other than 0x04, the buffer is
    rebound to the suffix that starts at that position: [e] is kept as
    its first byte, and everything before it (the bytes ahead of the
    marker, the marker, and the bytes read as length, type and payload)
    is dropped. *)
Theorem bad_terminator_drops_up_to_terminator_position
    (m_type : string) (data : list byte) (i : Z) (b1 e : byte) :
  0 <= i ->
  20 < len data - i ->
  index data (i + 1) = Some b1 ->
  0 <= i + ord b1 - 1 ->
  index data (i + ord b1 - 1) = Some e ->
  e <> x04 ->
  loop_body m_type i x01 data
  = BContinue (e :: skipn (Z.to_nat (i + ord b1)) data).
Proof.
  intros Hi Hlen H1 Hk He Hne.
  destruct (index_in_range data (i + 2)) as [b2 H2]; [lia|].
  apply loop_body_unwanted with (b2 := b2); try assumption.
  unfold frame_wanted.
  destruct (ord e =? 4) eqn:E; [|reflexivity].
  exfalso. apply Hne. apply ord_eqb. exact E.
Qed.

(** *** A valid frame of another type *)

(** C3, as amended: at a candidate that is a valid frame (its terminator
    position is inside the buffer and holds 0x04) of a type other than
    the wanted one, the buffer is rebound to the suffix that starts at the
    terminator: the terminator byte stays, as the first byte of the
    buffer, and everything before it is dropped.  This holds whatever the
    interpreter decides about the identity of strings, since strings of
    different value are never one object. *)
Theorem wrong_type_frame_drops_up_to_terminator
    (m_type : string) (tag : ascii) (data : list byte) (i : Z)
    (b1 b2 : byte) :
  sound same_object ->
  0 <= i ->
  20 < len data - i ->
  index data (i + 1) = Some b1 ->
  index data (i + 2) = Some b2 ->
  0 <= i + ord b1 - 1 ->
  index data (i + ord b1 - 1) = Some x04 ->
  getitem message_types m_type = Ok tag ->
  chr b2 <> tag ->
  loop_body m_type i x01 data
  = BContinue (x04 :: skipn (Z.to_nat (i + ord b1)) data).
Proof.
  intros Hsound Hi Hlen H1 H2 Hk He Htag Hne.
  apply loop_body_unwanted with (b2 := b2); try assumption.
  unfold frame_wanted. change (ord x04 =? 4) with true. cbv beta iota.
  rewrite Htag. f_equal.
  destruct (same_object (chr b2) tag) eqn:E; [|reflexivity].
  exfalso. apply Hne. apply Hsound. exact E.
Qed.

(** A frame found in the first chunk read ends the call after one read. *)
Lemma get_vmu_packet_first_read (rd : reader) (m_type : string)
    (chunk : list byte) (t : motion) :
  rd O = Ok chunk ->
  scan m_type chunk = Returned t ->
  get_vmu_packet true rd m_type = Some (Value (Some t), 1%nat).
Proof.
  intros Hrd Hscan. unfold get_vmu_packet, get_vmu_packet_fuel.
  destruct (Z.to_nat 5001) as [|fuel] eqn:E; [lia|].
  cbn [negb while_loop app]. cbv zeta. rewrite Hrd.
  cbn [app]. rewrite Hscan. reflexivity.
Qed.

End FrameScanner.

Section FrameScannerRuns.

Import VMU931CDCDriver.

Local Abbreviation frame_wanted := (frame_wanted cpython311).
Local Abbreviation loop_body := (loop_body cpython311).
Local Abbreviation for_loop := (for_loop cpython311).
Local Abbreviation scan := (scan cpython311).
Local Abbreviation while_loop := (while_loop cpython311).
Local Abbreviation get_vmu_packet_fuel := (get_vmu_packet_fuel cpython311).
Local Abbreviation get_vmu_packet := (get_vmu_packet cpython311).
Local Abbreviation buffer_after := (buffer_after cpython311).

Lemma scan_recovers_frame_witness :
  exists t,
    decode_motion
      [x00; x00; x03; xe8; x3f; xc0; x00; x00;
       xc0; x10; x00; x00; x00; x00; x00; x00] = Ok t /\
    scan "gyro"
      ([x00; x05] ++
       frame x14 x67
         [x00; x00; x03; xe8; x3f; xc0; x00; x00;
          xc0; x10; x00; x00; x00; x00; x00; x00] ++ [x00]) = Returned t.
Proof.
  apply scan_recovers_frame_after_marker_free_garbage.
  - reflexivity.
  - reflexivity.
  - reflexivity.
  - vm_compute. discriminate.
  - vm_compute. discriminate.
  - repeat constructor; discriminate.
Defined.

(** C1 as stated fails.  First buffer: two bytes 0x01 0xFF precede a
    valid gyro frame; the leading 0x01 is taken for a start marker, its
    terminator position 254 is outside the buffer, and the buffer is
    emptied: nothing is returned.  Second buffer: a valid gyro frame with
    a 4-byte payload and no garbage at all; unpacking raises. *)
Lemma scan_misses_valid_frame :
  let payload :=
    [x00; x00; x03; xe8; x3f; xc0; x00; x00;
     xc0; x10; x00; x00; x00; x00; x00; x00] in
  let short := [x00; x00; x03; xe8] in
  (getitem message_types "gyro" = Ok (chr x67) /\
   ord x14 = len payload + 4 /\
   20 <= len ([x14; x67] ++ payload ++ [x04] ++ [x00]) /\
   scan "gyro" ([x01; xff] ++ frame x14 x67 payload ++ [x00]) = Next [] /\
   ~ exists t,
       scan "gyro" ([x01; xff] ++ frame x14 x67 payload ++ [x00])
       = Returned t)
  /\
  (ord x08 = len short + 4 /\
   20 <= len ([x08; x67] ++ short ++ [x04] ++ repeat x00 20) /\
   scan "gyro" (frame x08 x67 short ++ repeat x00 20) = Raised StructError /\
   ~ exists t,
       scan "gyro" (frame x08 x67 short ++ repeat x00 20) = Returned t).
Proof.
  cbv zeta. repeat split; try reflexivity; try (vm_compute; discriminate).
  - intros [t Ht]. vm_compute in Ht. discriminate.
  - intros [t Ht]. vm_compute in Ht. discriminate.
Qed.

Lemma bad_terminator_witness :
  loop_body "gyro" 0 x01
    ([x01; x08; x65; x00; x00; x03; xe8; x05] ++ repeat x00 20)
  = BContinue (x05 :: repeat x00 20).
Proof.
  apply (bad_terminator_drops_up_to_terminator_position cpython311 "gyro"
           ([x01; x08; x65; x00; x00; x03; xe8; x05] ++ repeat x00 20)
           0 x08 x05).
  - lia.
  - vm_compute. reflexivity.
  - reflexivity.
  - vm_compute. discriminate.
  - reflexivity.
  - discriminate.
Defined.

(** C2 as stated fails: the candidate at position 0 declares length 8,
    position 7 holds 0x05, and the scanner keeps only the suffix from
    position 7 on; the bytes at positions 1 to 6 are gone, while dropping
    the start marker alone would have left them. *)
Lemma bad_terminator_discards_span :
  let data := [x01; x08; x65; x00; x00; x03; xe8; x05] ++ repeat x00 20 in
  index data 0 = Some x01 /\
  index data (0 + ord x08 - 1) = Some x05 /\
  loop_body "gyro" 0 x01 data = BContinue (skipn 7 data) /\
  loop_body "gyro" 0 x01 data <> BContinue (skipn 1 data).
Proof.
  cbv zeta. repeat split; try reflexivity.
  vm_compute. discriminate.
Qed.

Lemma wrong_type_frame_witness :
  loop_body "euler" 0 x01
    (frame x14 x67
       [x00; x00; x03; xe8; x3f; xc0; x00; x00;
        xc0; x10; x00; x00; x00; x00; x00; x00] ++ [x00; x00])
  = BContinue [x04; x00; x00].
Proof.
  apply (wrong_type_frame_drops_up_to_terminator cpython311 "euler" "e"%char
           (frame x14 x67
              [x00; x00; x03; xe8; x3f; xc0; x00; x00;
               xc0; x10; x00; x00; x00; x00; x00; x00] ++ [x00; x00])
           0 x14 x67).
  - exact cpython311_sound.
  - lia.
  - vm_compute. reflexivity.
  - reflexivity.
  - reflexivity.
  - vm_compute. discriminate.
  - reflexivity.
  - reflexivity.
  - discriminate.
Defined.

(** C3 as stated fails: a valid gyro frame at position 0 while euler is
    wanted, followed by 0xAA 0xBB.  Dropping the frame through its
    terminator would leave 0xAA 0xBB; the scanner leaves 0x04 0xAA 0xBB. *)
Lemma wrong_type_frame_keeps_terminator :
  let payload :=
    [x00; x00; x03; xe8; x3f; xc0; x00; x00;
     xc0; x10; x00; x00; x00; x00; x00; x00] in
  let data := frame x14 x67 payload ++ [xaa; xbb] in
  getitem message_types "euler" = Ok "e"%char /\
  index data (0 + ord x14 - 1) = Some x04 /\
  loop_body "euler" 0 x01 data = BContinue [x04; xaa; xbb] /\
  loop_body "euler" 0 x01 data <> BContinue [xaa; xbb].
Proof.
  cbv zeta. repeat split; try reflexivity.
  vm_compute. discriminate.
Qed.

(** After the buffer has been rebound the loop goes on with the pairs of
    the object it started on.  Here an euler frame is followed by a gyro
    frame and gyro is wanted.  The euler frame is passed over and the
    buffer rebound to its terminator and what follows; the byte 0x01 at
    position 5 of the old object (inside the euler payload) is then taken
    for a start marker of the new buffer, and the gyro frame is cut. *)
Example stale_enumeration_cuts_next_frame :
  let euler :=
    frame x14 x65
      [x00; x00; x01; x00; x00; x00; x00; x00;
       x00; x00; x00; x00; x00; x00; x00; x00] in
  let gyro :=
    frame x14 x67
      [x00; x00; x03; xe8; x3f; xc0; x00; x00;
       xc0; x10; x00; x00; x00; x00; x00; x00] in
  loop_body "gyro" 0 x01 (euler ++ gyro ++ repeat x00 8)
  = BContinue ([x04] ++ gyro ++ repeat x00 8)
  /\ scan "gyro" (euler ++ gyro ++ repeat x00 8)
     = Next (skipn 7 ([x04] ++ gyro ++ repeat x00 8)).
Proof. cbv zeta. split; reflexivity. Qed.

End FrameScannerRuns.

(** ** Termination of the scanning loops *)

Section ScanTermination.

Import VMU931CDCDriver.

Variable same_object : identity.

Local Abbreviation frame_wanted := (frame_wanted same_object).
Local Abbreviation loop_body := (loop_body same_object).
Local Abbreviation for_loop := (for_loop same_object).
Local Abbreviation scan := (scan same_object).
Local Abbreviation while_loop := (while_loop same_object).
Local Abbreviation get_vmu_packet_fuel := (get_vmu_packet_fuel same_object).
Local Abbreviation get_vmu_packet := (get_vmu_packet same_object).
Local Abbreviation buffer_after := (buffer_after same_object).

Lemma while_loop_terminates (rd : reader) (m_type : string) :
  forall (fuel n : nat) (iter_count : Z) (data : list byte),
    0 <= iter_count <= 5000 ->
    (Z.to_nat (5000 - iter_count) < fuel)%nat ->
    exists o n',
      while_loop fuel rd m_type n iter_count data = Some (o, n') /\
      (n' <= n + Z.to_nat (5000 - iter_count))%nat.
Proof.
  induction fuel as [|fuel IH]; intros n ic data Hic Hfuel; [lia|].
  cbn [while_loop]. cbv zeta.
  destruct (Z.gtb_spec (ic + 1) 5000) as [Hcap|Hcap].
  - exists (Value None), n. split; [reflexivity|lia].
  - destruct (rd n) as [chunk|e].
    + destruct (scan m_type (data ++ chunk)) as [data'|t|e].
      * destruct (IH (S n) (ic + 1) data') as (o & n' & E & Hn'); try lia.
        exists o, n'. split; [exact E|lia].
      * eexists _, _. split; [reflexivity|lia].
      * eexists _, _. split; [reflexivity|lia].
    + eexists _, _. split; [reflexivity|lia].
Qed.

(** More turns than the cap allows change nothing. *)
Lemma while_loop_fuel_irrelevant (rd : reader) (m_type : string) :
  forall (fuel1 fuel2 n : nat) (iter_count : Z) (data : list byte),
    0 <= iter_count <= 5000 ->
    (Z.to_nat (5000 - iter_count) < fuel1)%nat ->
    (Z.to_nat (5000 - iter_count) < fuel2)%nat ->
    while_loop fuel1 rd m_type n iter_count data
    = while_loop fuel2 rd m_type n iter_count data.
Proof.
  induction fuel1 as [|fuel1 IH]; intros [|fuel2] n ic data Hic H1 H2;
    try lia.
  cbn [while_loop]. cbv zeta.
  destruct (Z.gtb_spec (ic + 1) 5000) as [Hcap|Hcap]; [reflexivity|].
  destruct (rd n) as [chunk|e]; [|reflexivity].
  destruct (scan m_type (data ++ chunk)) as [data'|t|e]; try reflexivity.
  apply IH; lia.
Qed.

Lemma buffer_after_earlier (rd : reader) (m_type : string) (k j : nat) :
  buffer_after rd m_type (k + j) <> None -> buffer_after rd m_type k <> None.
Proof.
  induction j as [|j IH]; [now rewrite Nat.add_0_r|].
  rewrite Nat.add_succ_r. cbn [buffer_after].
  destruct (buffer_after rd m_type (k + j)); [|congruence].
  intros _. apply IH. discriminate.
Qed.

Lemma while_loop_runs_to_cap (rd : reader) (m_type : string) :
  forall (j fuel n : nat) (data : list byte),
    (n + j = Z.to_nat 5000)%nat ->
    (j < fuel)%nat ->
    buffer_after rd m_type n = Some data ->
    buffer_after rd m_type (n + j) <> None ->
    while_loop fuel rd m_type n (Z.of_nat n) data
    = Some (Value None, Z.to_nat 5000).
Proof.
  induction j as [|j IH]; intros [|fuel] n data Hn Hfuel Hdata Hall;
    try lia; cbn [while_loop]; cbv zeta.
  - destruct (Z.gtb_spec (Z.of_nat n + 1) 5000) as [_|Hcap]; [|lia].
    do 2 f_equal. lia.
  - destruct (Z.gtb_spec (Z.of_nat n + 1) 5000) as [Hcap|_]; [lia|].
    assert (Hnext : buffer_after rd m_type (S n) <> None).
    { apply buffer_after_earlier with (j := j).
      now rewrite Nat.add_succ_l, <- Nat.add_succ_r. }
    cbn [buffer_after] in Hnext. rewrite Hdata in Hnext.
    destruct (rd n) as [chunk|e] eqn:Erd; [|congruence].
    destruct (scan m_type (data ++ chunk)) as [data'|t|e] eqn:Escan;
      try congruence.
    replace (Z.of_nat n + 1) with (Z.of_nat (S n)) by lia.
    apply IH; try lia.
    + cbn [buffer_after]. now rewrite Hdata, Erd, Escan.
    + now rewrite Nat.add_succ_l, <- Nat.add_succ_r.
Qed.

(** The loop of [get_vmu_packet] always ends, after at most 5000 reads:
    with a tuple, with [None], or with an exception. *)
Theorem get_vmu_packet_terminates
    (device : bool) (rd : reader) (m_type : string) :
  exists o n,
    get_vmu_packet device rd m_type = Some (o, n) /\ (n <= Z.to_nat 5000)%nat.
Proof.
  unfold get_vmu_packet, get_vmu_packet_fuel.
  destruct device; cbn [negb].
  - destruct (while_loop_terminates rd m_type (Z.to_nat 5001) 0 0 [])
      as (o & n & E & Hn); try lia.
    exists o, n. split; [exact E|lia].
  - exists (Value None), O. split; [reflexivity|lia].
Qed.

(** When 5000 reads and scans go by without a frame of the wanted type
    (and without an exception), the call returns [None]. *)
Theorem get_vmu_packet_times_out (rd : reader) (m_type : string) :
  buffer_after rd m_type (Z.to_nat 5000) <> None ->
  get_vmu_packet true rd m_type = Some (Value None, Z.to_nat 5000).
Proof.
  intros H. unfold get_vmu_packet, get_vmu_packet_fuel. cbn [negb].
  apply (while_loop_runs_to_cap rd m_type (Z.to_nat 5000) (Z.to_nat 5001)
           O []); try lia; [reflexivity | exact H].
Qed.

End ScanTermination.

Section SerialScan.

Import VMU931Driver.

Variable same_object : identity.

Local Abbreviation get_message_loop := (get_message_loop same_object).
Local Abbreviation get_message := (get_message same_object).
Local Abbreviation get_configuration_loop :=
  (get_configuration_loop same_object).
Local Abbreviation get_configuration := (get_configuration same_object).
Local Abbreviation __init__ := (__init__ same_object).

Lemma get_message_loop_zero_line (wanted : ascii) :
  forall (fuel n : nat) (sent : list string),
    get_message_loop fuel wanted (zero_line n sent) = None.
Proof.
  induction fuel as [|fuel IH]; intros n sent; [reflexivity|].
  cbn [get_message_loop].
  exact (IH (S n) sent).
Qed.

(** C9 on the serial driver: [get_message] has no cap.  On a line that
    delivers 0x00 forever it neither returns nor raises, however many
    turns it is given. *)
Theorem get_message_never_ends_on_zero_line (fuel : nat) :
  get_message fuel "gyro" (zero_line 0 []) = None.
Proof.
  unfold get_message. cbn [getitem message_types String.eqb Ascii.eqb
                           Bool.eqb].
  apply get_message_loop_zero_line.
Qed.

End SerialScan.

(** ** Reconfiguration *)

Section Reconfiguration.

Import VMU931Driver.

Lemma toggle_same (X : configuration) flag command :
  toggle X X flag command = [].
Proof. unfold toggle. now rewrite xorb_nilpotent. Qed.

Lemma toggle_commands_same (X : configuration) : toggle_commands X X = [].
Proof. unfold toggle_commands. now rewrite !toggle_same. Qed.

(** With supported resolutions in the new configuration, the call writes
    the two set-resolution commands and then the toggles. *)
Lemma set_configuration_sends
    (cur new : configuration) (p : port) (g a gcode acode : Z) :
  gyroscope_resolution new = Some g ->
  get gyro_resolutions g = Some gcode ->
  accelerometer_resolution new = Some a ->
  get accelerometer_resolutions a = Some acode ->
  set_configuration (Some cur) (Some new) p
  = (Ok tt,
     sent p ([("var" ++ format_int gcode)%string;
              ("var" ++ format_int acode)%string]
             ++ toggle_commands cur new)).
Proof.
  intros Hg Hgc Ha Hac.
  unfold set_configuration, set_gyro_resolution, set_accelerometer_resolution.
  rewrite Hg, Hgc, Ha, Hac.
  unfold toggle_commands, toggle.
  destruct (xorb (accelerometer_streaming cur) (accelerometer_streaming new)),
    (xorb (gyroscope_streaming cur) (gyroscope_streaming new)),
    (xorb (magnetometer_streaming cur) (magnetometer_streaming new)),
    (xorb (quaternion_streaming cur) (quaternion_streaming new)),
    (xorb (euler_streaming cur) (euler_streaming new)),
    (xorb (heading_streaming cur) (heading_streaming new));
    cbv -[app format_int]; rewrite <- ?app_assoc; reflexivity.
Qed.

Lemma toggle_In (cur new : configuration) flag command c :
  In c (toggle cur new flag command) <-> c = command /\ flag cur <> flag new.
Proof.
  unfold toggle.
  destruct (flag cur), (flag new); simpl; intuition congruence.
Qed.

(** Each toggle is among the toggles of a reconfiguration exactly when
    its flag differs between the two configurations. *)
Lemma toggle_commands_In (cur new : configuration) (c : string) :
  In c (toggle_commands cur new) <->
  (c = "vara"%string /\
     accelerometer_streaming cur <> accelerometer_streaming new) \/
  (c = "varg"%string /\ gyroscope_streaming cur <> gyroscope_streaming new) \/
  (c = "varc"%string /\
     magnetometer_streaming cur <> magnetometer_streaming new) \/
  (c = "varq"%string /\
     quaternion_streaming cur <> quaternion_streaming new) \/
  (c = "vare"%string /\ euler_streaming cur <> euler_streaming new) \/
  (c = "varh"%string /\ heading_streaming cur <> heading_streaming new).
Proof.
  unfold toggle_commands. rewrite !in_app_iff, !toggle_In. tauto.
Qed.

(** C4, as amended: reconfiguring from a configuration to itself sends
    no toggle; when the two resolutions of the configuration are
    supported it sends exactly the two set-resolution commands, gyroscope
    first. *)
Theorem set_configuration_same_sends_only_resolutions
    (X : configuration) (p : port) (g a gcode acode : Z) :
  gyroscope_resolution X = Some g ->
  get gyro_resolutions g = Some gcode ->
  accelerometer_resolution X = Some a ->
  get accelerometer_resolutions a = Some acode ->
  set_configuration (Some X) (Some X) p
  = (Ok tt,
     sent p [("var" ++ format_int gcode)%string;
             ("var" ++ format_int acode)%string]).
Proof.
  intros Hg Hgc Ha Hac.
  rewrite (set_configuration_sends X X p g a gcode acode) by assumption.
  now rewrite toggle_commands_same.
Qed.

Lemma set_configuration_same_witness :
  set_configuration (Some basic_configuration) (Some basic_configuration)
    idle_port
  = (Ok tt, sent idle_port ["var3"; "var4"]%string).
Proof.
  apply (set_configuration_same_sends_only_resolutions
           basic_configuration idle_port 2000 2 3 4); reflexivity.
Defined.

(** C4 as stated fails: with the driver's own basic configuration on both
    sides, two commands are written. *)
Lemma set_configuration_same_is_not_silent :
  tx (snd (set_configuration (Some basic_configuration)
             (Some basic_configuration) idle_port))
  = ["var3"; "var4"]%string
  /\ tx (snd (set_configuration (Some basic_configuration)
                (Some basic_configuration) idle_port)) <> [].
Proof. split; [reflexivity | discriminate]. Qed.

(** C7, as amended: when the resolutions of the desired configuration
    are supported, the call succeeds and what it writes is the two
    set-resolution commands followed by the toggles, where the toggle of
    a streaming flag is present exactly when the flag differs between the
    current and the desired configuration, and the toggles come in the
    order vara, varg, varc, varq, vare, varh. *)
Theorem set_configuration_toggles_differing_flags
    (cur new : configuration) (p : port) (g a gcode acode : Z) :
  gyroscope_resolution new = Some g ->
  get gyro_resolutions g = Some gcode ->
  accelerometer_resolution new = Some a ->
  get accelerometer_resolutions a = Some acode ->
  exists p',
    set_configuration (Some cur) (Some new) p = (Ok tt, p') /\
    tx p' =
      tx p ++
      [("var" ++ format_int gcode)%string; ("var" ++ format_int acode)%string] ++
      (if xorb (accelerometer_streaming cur) (accelerometer_streaming new)
       then ["vara"%string] else []) ++
      (if xorb (gyroscope_streaming cur) (gyroscope_streaming new)
       then ["varg"%string] else []) ++
      (if xorb (magnetometer_streaming cur) (magnetometer_streaming new)
       then ["varc"%string] else []) ++
      (if xorb (quaternion_streaming cur) (quaternion_streaming new)
       then ["varq"%string] else []) ++
      (if xorb (euler_streaming cur) (euler_streaming new)
       then ["vare"%string] else []) ++
      (if xorb (heading_streaming cur) (heading_streaming new)
       then ["varh"%string] else []).
Proof.
  intros Hg Hgc Ha Hac. eexists. split.
  - exact (set_configuration_sends cur new p g a gcode acode Hg Hgc Ha Hac).
  - reflexivity.
Qed.

Lemma set_configuration_toggles_witness :
  exists p',
    set_configuration (Some basic_configuration) (Some accel_and_heading)
      idle_port = (Ok tt, p') /\
    tx p' = ["var1"; "var7"; "vara"; "varg"; "varh"]%string.
Proof.
  apply (set_configuration_toggles_differing_flags
           basic_configuration accel_and_heading idle_port 500 16 1 7);
    reflexivity.
Defined.

(** C7 as stated fails: the desired configuration differs from the
    current one in accelerometer streaming, but its gyroscope resolution
    is unknown; the call raises before any toggle is written. *)
Lemma set_configuration_raises_before_toggles :
  let new := {| magnetometer_enabled := None;
                gyroscope_enabled := None;
                accelerometer_enabled := None;
                gyroscope_resolution := None;
                accelerometer_resolution := Some 2;
                low_output_rate := None;
                heading_streaming := false;
                euler_streaming := false;
                magnetometer_streaming := false;
                quaternion_streaming := false;
                gyroscope_streaming := true;
                accelerometer_streaming := true |} in
  accelerometer_streaming basic_configuration <> accelerometer_streaming new
  /\ set_configuration (Some basic_configuration) (Some new) idle_port
     = (Raise ValueError, idle_port)
  /\ ~ In "vara"%string
       (tx (snd (set_configuration (Some basic_configuration) (Some new)
                   idle_port))).
Proof.
  cbv zeta. split; [discriminate|]. split; [reflexivity|].
  simpl. tauto.
Qed.

End Reconfiguration.

(** ** Decoding payloads *)

Section Decoding.

Import VMU931Driver.

Lemma slice_to_nonneg {A} (l : list A) (k : Z) :
  0 <= k -> slice_to l k = firstn (Z.to_nat k) l.
Proof.
  intros Hk. unfold slice_to, clamp.
  destruct (Z.ltb_spec k 0); [lia|].
  destruct (Z.le_gt_cases k (len l)).
  - now rewrite Z.min_l by lia.
  - rewrite Z.min_r by lia.
    rewrite !firstn_all2; unfold len in *; try lia. reflexivity.
Qed.

Lemma bit_set_testbit (x k : Z) :
  0 <= k -> bit_set x (2 ^ k) = Z.testbit x k.
Proof.
  intros Hk. unfold bit_set.
  destruct (Z.testbit x k) eqn:E.
  - destruct (Z.eqb_spec (Z.land x (2 ^ k)) 0) as [H0|]; [|reflexivity].
    assert (Hb : Z.testbit (Z.land x (2 ^ k)) k = true)
      by (rewrite Z.land_spec, E, Z.pow2_bits_true; auto).
    rewrite H0, Z.bits_0 in Hb. discriminate.
  - replace (Z.land x (2 ^ k)) with 0; [reflexivity|].
    symmetry. apply Z.bits_inj'. intros n Hn.
    rewrite Z.land_spec, Z.bits_0, Z.pow2_bits_eqb by exact Hk.
    destruct (Z.eqb_spec k n) as [<-|_].
    + now rewrite E.
    + apply andb_false_r.
Qed.

(** The parser on a payload of at least 7 bytes, field by field. *)
Lemma parse_status_cons (b0 b1 b2 b3 b4 b5 b6 : byte) (rest : list byte) :
  _parse_status_message (b0 :: b1 :: b2 :: b3 :: b4 :: b5 :: b6 :: rest)
  = Ok {| magnetometer_enabled := Some (bit_set (ord b0) 4);
          gyroscope_enabled := Some (bit_set (ord b0) 2);
          accelerometer_enabled := Some (bit_set (ord b0) 1);
          gyroscope_resolution :=
            if bit_set (ord b1) 128 then Some 2000
            else if bit_set (ord b1) 64 then Some 1000
            else if bit_set (ord b1) 32 then Some 500
            else if bit_set (ord b1) 16 then Some 250
            else None;
          accelerometer_resolution :=
            if bit_set (ord b1) 8 then Some 16
            else if bit_set (ord b1) 4 then Some 8
            else if bit_set (ord b1) 2 then Some 4
            else if bit_set (ord b1) 1 then Some 2
            else None;
          low_output_rate := Some (bit_set (ord b2) 1);
          heading_streaming := bit_set (be_uint [b3; b4; b5; b6]) 64;
          euler_streaming := bit_set (be_uint [b3; b4; b5; b6]) 16;
          magnetometer_streaming := bit_set (be_uint [b3; b4; b5; b6]) 8;
          quaternion_streaming := bit_set (be_uint [b3; b4; b5; b6]) 4;
          gyroscope_streaming := bit_set (be_uint [b3; b4; b5; b6]) 2;
          accelerometer_streaming := bit_set (be_uint [b3; b4; b5; b6]) 1 |}.
Proof.
  unfold _parse_status_message.
  rewrite slice_to_nonneg by lia. reflexivity.
Qed.

Lemma parse_status_short (message : list byte) :
  len message < 7 -> _parse_status_message message = Raise StructError.
Proof.
  intros H. unfold _parse_status_message.
  rewrite slice_to_short by lia.
  do 7 (destruct message as [|? message]; [reflexivity|]).
  unfold len in H. simpl in H. lia.
Qed.

Lemma be_uint_4 (a b c d : byte) :
  be_uint [a; b; c; d]
  = ord a * 2 ^ 24 + ord b * 2 ^ 16 + ord c * 2 ^ 8 + ord d.
Proof.
  unfold be_uint. cbn [fold_left].
  change (2 ^ 24) with 16777216. change (2 ^ 16) with 65536.
  change (2 ^ 8) with 256. lia.
Qed.

Lemma unpack_Ifff_short (buf : list byte) :
  len buf < 16 -> unpack_Ifff buf = Raise StructError.
Proof.
  intros H. unfold unpack_Ifff.
  destruct (Nat.eqb_spec (List.length buf) 16) as [E|]; [|reflexivity].
  unfold len in H. lia.
Qed.

Lemma decode_motion_cons
    (b0 b1 b2 b3 b4 b5 b6 b7 b8 b9 b10 b11 b12 b13 b14 b15 : byte)
    (rest : list byte) :
  let payload :=
    b0 :: b1 :: b2 :: b3 :: b4 :: b5 :: b6 :: b7 ::
    b8 :: b9 :: b10 :: b11 :: b12 :: b13 :: b14 :: b15 :: rest in
  decode_motion payload
  = Ok (word_at payload 0, b32_of_bits (word_at payload 4),
        b32_of_bits (word_at payload 8), b32_of_bits (word_at payload 12)).
Proof.
  cbv zeta. unfold decode_motion.
  rewrite slice_to_nonneg by lia.
  change (Z.to_nat 16) with 16%nat. cbn [firstn].
  unfold unpack_Ifff. cbn [List.length Nat.eqb firstn skipn].
  rewrite !be_uint_4. reflexivity.
Qed.

Lemma bit_set_1 x : bit_set x 1 = Z.testbit x 0.
Proof. exact (bit_set_testbit x 0 (Z.le_refl 0)). Qed.

Lemma bit_set_2 x : bit_set x 2 = Z.testbit x 1.
Proof. apply (bit_set_testbit x 1). lia. Qed.

Lemma bit_set_4 x : bit_set x 4 = Z.testbit x 2.
Proof. apply (bit_set_testbit x 2). lia. Qed.

Lemma bit_set_8 x : bit_set x 8 = Z.testbit x 3.
Proof. apply (bit_set_testbit x 3). lia. Qed.

Lemma bit_set_16 x : bit_set x 16 = Z.testbit x 4.
Proof. apply (bit_set_testbit x 4). lia. Qed.

Lemma bit_set_32 x : bit_set x 32 = Z.testbit x 5.
Proof. apply (bit_set_testbit x 5). lia. Qed.

Lemma bit_set_64 x : bit_set x 64 = Z.testbit x 6.
Proof. apply (bit_set_testbit x 6). lia. Qed.

Lemma bit_set_128 x : bit_set x 128 = Z.testbit x 7.
Proof. apply (bit_set_testbit x 7). lia. Qed.

Lemma parse_status_resolutions (message : list byte) (cfg : configuration) :
  _parse_status_message message = Ok cfg ->
  gyroscope_resolution cfg = gyro_chain (byte_at message 1) /\
  accelerometer_resolution cfg = acc_chain (byte_at message 1).
Proof.
  intros H.
  destruct (Z.lt_ge_cases (len message) 7) as [Hs|Hl].
  - rewrite parse_status_short in H by exact Hs. discriminate.
  - do 7 (destruct message as [|? message];
          [unfold len in Hl; simpl in Hl; lia|]).
    rewrite parse_status_cons in H. injection H as <-.
    split; reflexivity.
Qed.

Lemma gyro_chain_one_hot (b : byte) :
  (Z.shiftr (ord b) 4 = 8 -> gyro_chain (ord b) = Some 2000) /\
  (Z.shiftr (ord b) 4 = 4 -> gyro_chain (ord b) = Some 1000) /\
  (Z.shiftr (ord b) 4 = 2 -> gyro_chain (ord b) = Some 500) /\
  (Z.shiftr (ord b) 4 = 1 -> gyro_chain (ord b) = Some 250).
Proof.
  destruct b; vm_compute; repeat split; intro H;
    solve [reflexivity | discriminate H].
Qed.

Lemma acc_chain_one_hot (b : byte) :
  (Z.land (ord b) 15 = 8 -> acc_chain (ord b) = Some 16) /\
  (Z.land (ord b) 15 = 4 -> acc_chain (ord b) = Some 8) /\
  (Z.land (ord b) 15 = 2 -> acc_chain (ord b) = Some 4) /\
  (Z.land (ord b) 15 = 1 -> acc_chain (ord b) = Some 2).
Proof.
  destruct b; vm_compute; repeat split; intro H;
    solve [reflexivity | discriminate H].
Qed.

Lemma parse_status_long (message : list byte) :
  (7 <= List.length message)%nat ->
  exists b0 b1 b2 b3 b4 b5 b6 rest,
    message = b0 :: b1 :: b2 :: b3 :: b4 :: b5 :: b6 :: rest.
Proof.
  intros H.
  do 7 (destruct message as [|? message]; [simpl in H; lia|]).
  repeat eexists.
Qed.

(** *** The status payload *)

(** C6: on every status payload of at least 7 bytes the parser succeeds
    and decodes the fields from the bits of the layout: byte 0 bits 2, 1,
    0 for magnetometer, gyroscope, accelerometer enabled; the one-hot high
    nibble of byte 1 for the gyroscope resolution 2000, 1000, 500, 250;
    the one-hot low nibble for the accelerometer resolution 16, 8, 4, 2;
    byte 2 bit 0 for the low output rate; bits 6, 4, 3, 2, 1, 0 of the
    big-endian word at bytes 3 to 6 for heading, euler, magnetometer,
    quaternion, gyroscope and accelerometer streaming. *)
Theorem parse_status_message_follows_layout (message : list byte) :
  (7 <= List.length message)%nat ->
  exists cfg,
    _parse_status_message message = Ok cfg /\ status_layout message cfg.
Proof.
  intros H.
  destruct (parse_status_long message H)
    as (b0 & b1 & b2 & b3 & b4 & b5 & b6 & rest & ->).
  eexists. split; [apply parse_status_cons|].
  unfold status_layout. cbv zeta.
  cbn [magnetometer_enabled gyroscope_enabled accelerometer_enabled
       gyroscope_resolution accelerometer_resolution low_output_rate
       heading_streaming euler_streaming magnetometer_streaming
       quaternion_streaming gyroscope_streaming accelerometer_streaming].
  unfold word_at, byte_at. cbn [nth Nat.add].
  rewrite be_uint_4.
  pose proof (gyro_chain_one_hot b1) as (G1 & G2 & G3 & G4).
  pose proof (acc_chain_one_hot b1) as (A1 & A2 & A3 & A4).
  repeat match goal with |- _ /\ _ => split end;
    first [ exact G1 | exact G2 | exact G3 | exact G4
          | exact A1 | exact A2 | exact A3 | exact A4
          | now rewrite ?bit_set_1, ?bit_set_2, ?bit_set_4, ?bit_set_8,
              ?bit_set_16, ?bit_set_64 ].
Qed.

Lemma parse_status_layout_witness :
  exists cfg,
    _parse_status_message [x05; x41; x01; x00; x00; x00; x4a] = Ok cfg /\
    status_layout [x05; x41; x01; x00; x00; x00; x4a] cfg.
Proof.
  apply parse_status_message_follows_layout. simpl. lia.
Defined.

(** C5, as amended: the scenario payload decodes to magnetometer,
    gyroscope and accelerometer all enabled (byte 0 is 0x07), gyroscope
    resolution 500, accelerometer resolution unknown, low output rate true
    (byte 2 is 0x01), gyroscope streaming true and every other streaming
    flag false. *)
Theorem parse_scenario_status :
  _parse_status_message scenario_status
  = Ok {| magnetometer_enabled := Some true;
          gyroscope_enabled := Some true;
          accelerometer_enabled := Some true;
          gyroscope_resolution := Some 500;
          accelerometer_resolution := None;
          low_output_rate := Some true;
          heading_streaming := false;
          euler_streaming := false;
          magnetometer_streaming := false;
          quaternion_streaming := false;
          gyroscope_streaming := true;
          accelerometer_streaming := false |}.
Proof. reflexivity. Qed.

(** C5 as stated fails: the claim has the accelerometer and the
    magnetometer disabled and the low output rate off; the parser reports
    all three on. *)
Lemma parse_scenario_status_not_as_claimed :
  _parse_status_message scenario_status
  <> Ok {| magnetometer_enabled := Some false;
           gyroscope_enabled := Some true;
           accelerometer_enabled := Some false;
           gyroscope_resolution := Some 500;
           accelerometer_resolution := None;
           low_output_rate := Some false;
           heading_streaming := false;
           euler_streaming := false;
           magnetometer_streaming := false;
           quaternion_streaming := false;
           gyroscope_streaming := true;
           accelerometer_streaming := false |}
  /\ (exists cfg,
        _parse_status_message scenario_status = Ok cfg /\
        magnetometer_enabled cfg = Some true /\
        accelerometer_enabled cfg = Some true /\
        low_output_rate cfg = Some true).
Proof.
  split.
  - vm_compute. discriminate.
  - eexists. split; [reflexivity|]. repeat split.
Qed.

(** *** Resolution bytes that are not one-hot *)

Lemma gyro_chain_priority (res : Z) :
  priority_decoding res 4 (fun k => 250 * 2 ^ (k - 4)) (gyro_chain res).
Proof.
  unfold priority_decoding, gyro_chain.
  rewrite bit_set_128, bit_set_64, bit_set_32, bit_set_16. split.
  - intros k Hk Hbit Hhigher.
    assert (Hcases : k = 4 \/ k = 5 \/ k = 6 \/ k = 7) by lia.
    destruct Hcases as [-> | [-> | [-> | ->]]];
      rewrite ?(Hhigher 7), ?(Hhigher 6), ?(Hhigher 5) by lia;
      rewrite Hbit; reflexivity.
  - intros Hnone. rewrite !Hnone by lia. reflexivity.
Qed.

Lemma acc_chain_priority (res : Z) :
  priority_decoding res 0 (fun k => 2 * 2 ^ k) (acc_chain res).
Proof.
  unfold priority_decoding, acc_chain.
  rewrite bit_set_8, bit_set_4, bit_set_2, bit_set_1. split.
  - intros k Hk Hbit Hhigher.
    assert (Hcases : k = 0 \/ k = 1 \/ k = 2 \/ k = 3) by lia.
    destruct Hcases as [-> | [-> | [-> | ->]]];
      rewrite ?(Hhigher 3), ?(Hhigher 2), ?(Hhigher 1) by lia;
      rewrite Hbit; reflexivity.
  - intros Hnone. rewrite !Hnone by lia. reflexivity.
Qed.

(** C10: on every payload of at least 7 bytes the parser returns a
    configuration, whatever the resolution byte holds: the gyroscope
    resolution is decided by the highest set bit among bits 7 to 4 (2000,
    1000, 500, 250), the accelerometer resolution by the highest set bit
    among bits 3 to 0 (16, 8, 4, 2), and a nibble with no bit set gives an
    unknown resolution. *)
Theorem parse_status_message_total_on_resolution_byte (message : list byte) :
  (7 <= List.length message)%nat ->
  exists cfg,
    _parse_status_message message = Ok cfg /\
    priority_decoding (byte_at message 1) 4 (fun k => 250 * 2 ^ (k - 4))
      (gyroscope_resolution cfg) /\
    priority_decoding (byte_at message 1) 0 (fun k => 2 * 2 ^ k)
      (accelerometer_resolution cfg).
Proof.
  intros H.
  destruct (parse_status_long message H)
    as (b0 & b1 & b2 & b3 & b4 & b5 & b6 & rest & E).
  pose proof (parse_status_cons b0 b1 b2 b3 b4 b5 b6 rest) as Hp.
  rewrite <- E in Hp.
  eexists. split; [exact Hp|].
  destruct (parse_status_resolutions _ _ Hp) as [-> ->].
  split; [apply gyro_chain_priority | apply acc_chain_priority].
Qed.

Lemma parse_status_total_witness :
  exists cfg,
    _parse_status_message [x07; xf6; x00; x00; x00; x00; x00] = Ok cfg /\
    priority_decoding (byte_at [x07; xf6; x00; x00; x00; x00; x00] 1) 4
      (fun k => 250 * 2 ^ (k - 4)) (gyroscope_resolution cfg) /\
    priority_decoding (byte_at [x07; xf6; x00; x00; x00; x00; x00] 1) 0
      (fun k => 2 * 2 ^ k) (accelerometer_resolution cfg).
Proof.
  apply parse_status_message_total_on_resolution_byte. simpl. lia.
Defined.

(** *** The binary32 reading of a word *)

Lemma digits2_pos_size (p : positive) : digits2_pos p = Pos.size p.
Proof. induction p; simpl; congruence. Qed.

Lemma digits2_pos_upper (p : positive) (n : Z) :
  0 <= n -> Zpos p < 2 ^ n -> Zpos (digits2_pos p) <= n.
Proof.
  intros Hn Hp. rewrite digits2_pos_size.
  pose proof (Pos.size_le p) as Hle.
  apply Pos2Z.pos_le_pos in Hle. rewrite Pos2Z.inj_pow in Hle.
  change (Zpos p~0) with (2 * Zpos p) in Hle.
  destruct (Z.le_gt_cases (Zpos (Pos.size p)) n) as [|Hgt]; [assumption|].
  exfalso.
  assert (2 ^ (n + 1) <= 2 ^ Zpos (Pos.size p))
    by (apply Z.pow_le_mono_r; lia).
  replace (n + 1) with (Z.succ n) in H by lia.
  rewrite Z.pow_succ_r in H by lia. lia.
Qed.

Lemma digits2_pos_lower (p : positive) (n : Z) :
  0 <= n -> 2 ^ n <= Zpos p -> n < Zpos (digits2_pos p).
Proof.
  intros Hn Hp. rewrite digits2_pos_size.
  pose proof (Pos.size_gt p) as Hgt.
  apply Pos2Z.pos_lt_pos in Hgt. rewrite Pos2Z.inj_pow in Hgt.
  destruct (Z.lt_ge_cases n (Zpos (Pos.size p))) as [|Hge]; [assumption|].
  exfalso.
  assert (2 ^ Zpos (Pos.size p) <= 2 ^ n) by (apply Z.pow_le_mono_r; lia).
  lia.
Qed.

Lemma b32_of_bits_valid (w : Z) : valid_binary 24 128 (b32_of_bits w) = true.
Proof.
  unfold b32_of_bits.
  assert (He : 0 <= Z.land (Z.shiftr w 23) 255 < 256).
  { change 255 with (Z.ones 8). rewrite Z.land_ones by lia.
    apply Z.mod_pos_bound. lia. }
  assert (Hm : 0 <= Z.land w (2 ^ 23 - 1) < 2 ^ 23).
  { change (2 ^ 23 - 1) with (Z.ones 23). rewrite Z.land_ones by lia.
    apply Z.mod_pos_bound. lia. }
  set (e := Z.land (Z.shiftr w 23) 255) in *.
  set (m := Z.land w (2 ^ 23 - 1)) in *.
  destruct (Z.eqb_spec e 0) as [E0|E0].
  - destruct m as [|p|p] eqn:Em; try reflexivity.
    unfold valid_binary, bounded, canonical_mantissa, fexp, emin.
    pose proof (digits2_pos_upper p 23 ltac:(lia) (proj2 Hm)).
    apply andb_true_iff. split; [apply Z.eqb_eq; lia | apply Z.leb_le; lia].
  - destruct (Z.eqb_spec e 255) as [E1|E1].
    + destruct m; reflexivity.
    + destruct (m + 2 ^ 23) as [|p|p] eqn:Em; try reflexivity.
      unfold valid_binary, bounded, canonical_mantissa, fexp, emin.
      assert (Hp : 2 ^ 23 <= Zpos p < 2 ^ 24).
      { rewrite <- Em. change (2 ^ 24) with (2 ^ 23 + 2 ^ 23). lia. }
      pose proof (digits2_pos_upper p 24 ltac:(lia) (proj2 Hp)).
      pose proof (digits2_pos_lower p 23 ltac:(lia) (proj1 Hp)).
      apply andb_true_iff. split; [apply Z.eqb_eq; lia | apply Z.leb_le; lia].
Qed.

Example b32_of_bits_one_and_a_half :
  b32_of_bits 0x3fc00000 = S754_finite false 12582912 (-23).
Proof. reflexivity. Qed.

Example b32_of_bits_infinity : b32_of_bits 0xff800000 = S754_infinity true.
Proof. reflexivity. Qed.

Example b32_of_bits_nan : b32_of_bits 0x7fc00000 = S754_nan.
Proof. reflexivity. Qed.

Example b32_of_bits_smallest : b32_of_bits 1 = S754_finite false 1 (-149).
Proof. reflexivity. Qed.

(** *** Payloads that are too short *)

Lemma decode_motion_short (payload : list byte) :
  len payload < 16 -> decode_motion payload = Raise StructError.
Proof.
  intros H. unfold decode_motion.
  rewrite slice_to_short by lia. now apply unpack_Ifff_short.
Qed.

Lemma decode_motion_fields (payload : list byte) :
  16 <= len payload ->
  decode_motion payload
  = Ok (word_at payload 0, b32_of_bits (word_at payload 4),
        b32_of_bits (word_at payload 8), b32_of_bits (word_at payload 12)).
Proof.
  intros H.
  do 16 (destruct payload as [|? payload];
         [unfold len in H; simpl in H; lia|]).
  apply decode_motion_cons.
Qed.

(** C8: decoding a motion payload raises, and then it is [struct.error]
    (the MalformedPayload of the design), exactly when the payload has
    fewer than 16 bytes; otherwise it returns the big-endian unsigned word
    at bytes 0 to 3 as the timestamp and the binary32 values of the
    big-endian words at bytes 4 to 7, 8 to 11 and 12 to 15.  Decoding a
    status payload raises, again [struct.error], exactly when the payload
    has fewer than 7 bytes. *)
Theorem payload_decoding_fails_iff_short (payload : list byte) :
  (forall e, decode_motion payload = Raise e <->
             e = StructError /\ len payload < 16) /\
  (16 <= len payload ->
   decode_motion payload
   = Ok (word_at payload 0, b32_of_bits (word_at payload 4),
         b32_of_bits (word_at payload 8), b32_of_bits (word_at payload 12)))
  /\
  (forall e, _parse_status_message payload = Raise e <->
             e = StructError /\ len payload < 7) /\
  (7 <= len payload -> exists cfg, _parse_status_message payload = Ok cfg).
Proof.
  assert (Hstatus : 7 <= len payload ->
                    exists cfg, _parse_status_message payload = Ok cfg).
  { intros H.
    destruct (parse_status_long payload)
      as (b0 & b1 & b2 & b3 & b4 & b5 & b6 & rest & ->);
      [unfold len in H; lia|].
    eexists. apply parse_status_cons. }
  repeat match goal with |- _ /\ _ => split end.
  - intros e. destruct (Z.lt_ge_cases (len payload) 16) as [Hs|Hl].
    + rewrite decode_motion_short by exact Hs.
      split; [intros [= <-]; auto | intros [-> _]; reflexivity].
    + rewrite decode_motion_fields by exact Hl.
      split; [discriminate | intros [_ ?]; lia].
  - apply decode_motion_fields.
  - intros e. destruct (Z.lt_ge_cases (len payload) 7) as [Hs|Hl].
    + rewrite parse_status_short by exact Hs.
      split; [intros [= <-]; auto | intros [-> _]; reflexivity].
    + destruct (Hstatus Hl) as [cfg ->].
      split; [discriminate | intros [_ ?]; lia].
  - exact Hstatus.
Qed.

(** The motion scenario of the design: timestamp 1000, x = 1.5,
    y = -2.25, z = 0.0. *)
Lemma payload_decoding_witness :
  decode_motion
    [x00; x00; x03; xe8; x3f; xc0; x00; x00;
     xc0; x10; x00; x00; x00; x00; x00; x00]
  = Ok (1000, S754_finite false 12582912 (-23),
        S754_finite true 9437184 (-22), S754_zero false).
Proof.
  destruct (payload_decoding_fails_iff_short
              [x00; x00; x03; xe8; x3f; xc0; x00; x00;
               xc0; x10; x00; x00; x00; x00; x00; x00]) as (_ & H & _).
  rewrite H by (vm_compute; discriminate). reflexivity.
Defined.

End Decoding.

(** ** More on the scan loop of the USB driver *)

Section ScanBuffer.

Import VMU931CDCDriver.

Variable same_object : identity.

Local Abbreviation frame_wanted := (frame_wanted same_object).
Local Abbreviation loop_body := (loop_body same_object).
Local Abbreviation for_loop := (for_loop same_object).
Local Abbreviation scan := (scan same_object).
Local Abbreviation while_loop := (while_loop same_object).
Local Abbreviation get_vmu_packet_fuel := (get_vmu_packet_fuel same_object).
Local Abbreviation get_vmu_packet := (get_vmu_packet same_object).
Local Abbreviation buffer_after := (buffer_after same_object).

Lemma slice_from_is_suffix {A} (l : list A) (k : Z) :
  exists dropped, l = dropped ++ slice_from l k.
Proof.
  unfold slice_from.
  exists (firstn (Z.to_nat (clamp (len l) k)) l).
  symmetry. apply firstn_skipn.
Qed.

Lemma loop_body_keeps_suffix m_type i c data data' :
  loop_body m_type i c data = BContinue data' \/
  loop_body m_type i c data = BBreak data' ->
  exists dropped, data = dropped ++ data'.
Proof.
  unfold loop_body.
  destruct ((ord c =? 1) && (20 <? len (slice_from data i))).
  - destruct (try_block data i) as [[[[ms mt] msg] me]|].
    + destruct (frame_wanted m_type mt me) as [[|]|e].
      * destruct (decode_motion msg); intros [H|H]; discriminate.
      * intros [H|H]; [|discriminate]. injection H as <-.
        apply slice_from_is_suffix.
      * intros [H|H]; discriminate.
    + intros [H|H]; [discriminate|]. injection H as <-.
      exists data. symmetry. apply app_nil_r.
  - intros [H|H]; [|discriminate]. injection H as <-. now exists [].
Qed.

Lemma for_loop_keeps_suffix m_type it :
  forall i data data',
    for_loop m_type it i data = Next data' ->
    exists dropped, data = dropped ++ data'.
Proof.
  induction it as [|c it IH]; intros i data data' H.
  - injection H as <-. now exists [].
  - rewrite for_loop_cons in H.
    destruct (loop_body m_type i c data) as [d|d|t|e] eqn:E; try discriminate.
    + destruct (loop_body_keeps_suffix m_type i c data d (or_introl E))
        as [dr1 ->].
      destruct (IH _ _ _ H) as [dr2 ->].
      exists (dr1 ++ dr2). now rewrite app_assoc.
    + injection H as <-.
      exact (loop_body_keeps_suffix m_type i c data d (or_intror E)).
Qed.

(** A scan that returns nothing only ever drops bytes from the front of
    the buffer: what it leaves is a suffix of what it was given. *)
Theorem scan_keeps_a_suffix (m_type : string) (data data' : list byte) :
  scan m_type data = Next data' ->
  exists dropped, data = dropped ++ data'.
Proof. apply for_loop_keeps_suffix. Qed.

Lemma len_slice_from_nonneg {A} (l : list A) (i : Z) :
  0 <= i -> len (slice_from l i) = Z.max 0 (len l - i).
Proof.
  intros Hi. rewrite slice_from_nonneg by exact Hi.
  unfold len. rewrite length_skipn. lia.
Qed.

Lemma for_loop_no_candidate m_type data :
  forall it i,
    0 <= i ->
    (forall j, nth_error it j = Some x01 ->
               len data - (i + Z.of_nat j) <= 20) ->
    for_loop m_type it i data = Next data.
Proof.
  induction it as [|c it IH]; intros i Hi H; [reflexivity|].
  rewrite for_loop_cons.
  assert (Hbody : loop_body m_type i c data = BContinue data).
  { destruct (Byte.byte_eq_dec c x01) as [->|Hc].
    - unfold loop_body. rewrite len_slice_from_nonneg by exact Hi.
      specialize (H O eq_refl). simpl in H.
      replace (20 <? Z.max 0 (len data - i)) with false; [reflexivity|].
      symmetry. apply Z.ltb_ge. lia.
    - now apply loop_body_not_marker. }
  rewrite Hbody. apply IH; [lia|].
  intros j Hj. specialize (H (S j) Hj). lia.
Qed.

(** A buffer in which no byte 0x01 has more than 20 bytes from it on is
    scanned without result and left as it is. *)
Theorem scan_without_candidate (m_type : string) (data : list byte) :
  (forall j, nth_error data j = Some x01 ->
             len data - Z.of_nat j <= 20) ->
  scan m_type data = Next data.
Proof.
  intros H. unfold scan. apply for_loop_no_candidate; [lia|].
  intros j Hj. specialize (H j Hj). lia.
Qed.

(** In particular a buffer of at most 20 bytes is never consumed, whatever
    it holds: a frame is only looked at once more than 20 bytes have
    arrived from its start marker on. *)
Theorem scan_short_buffer (m_type : string) (data : list byte) :
  len data <= 20 -> scan m_type data = Next data.
Proof.
  intros H. unfold scan. apply for_loop_no_candidate; [lia|].
  intros j _. lia.
Qed.

End ScanBuffer.

Section ScanBufferRuns.

Import VMU931CDCDriver.

Local Abbreviation frame_wanted := (frame_wanted cpython311).
Local Abbreviation loop_body := (loop_body cpython311).
Local Abbreviation for_loop := (for_loop cpython311).
Local Abbreviation scan := (scan cpython311).
Local Abbreviation while_loop := (while_loop cpython311).
Local Abbreviation get_vmu_packet_fuel := (get_vmu_packet_fuel cpython311).
Local Abbreviation get_vmu_packet := (get_vmu_packet cpython311).
Local Abbreviation buffer_after := (buffer_after cpython311).

Lemma scan_keeps_a_suffix_witness :
  exists dropped,
    [x01; x08; x65; x00; x00; x03; xe8; x05] ++ repeat x00 20
    = dropped ++ x05 :: repeat x00 20.
Proof.
  apply (scan_keeps_a_suffix cpython311 "gyro"). reflexivity.
Defined.

Lemma scan_without_candidate_witness :
  scan "gyro" (repeat x00 30 ++ [x01; x14; x67; x00; x00])
  = Next (repeat x00 30 ++ [x01; x14; x67; x00; x00]).
Proof.
  apply scan_without_candidate.
  intros j Hj.
  assert (Hlt : (j < 35)%nat).
  { change 35%nat
      with (List.length
              (repeat x00 30 ++ [x01; x14; x67; x00; x00])).
    apply nth_error_Some. rewrite Hj. discriminate. }
  assert (Hge : (30 <= j)%nat).
  { destruct (Nat.lt_ge_cases j 30) as [Hs|]; [|assumption].
    do 30 (destruct j as [|j]; [discriminate Hj|]). lia. }
  vm_compute len. lia.
Defined.

Lemma scan_short_buffer_witness : scan "gyro" [x01; x01] = Next [x01; x01].
Proof.
  apply scan_short_buffer. vm_compute. discriminate.
Defined.

End ScanBufferRuns.

Section ScanCandidates.

Import VMU931CDCDriver.

Variable same_object : identity.

Local Abbreviation frame_wanted := (frame_wanted same_object).
Local Abbreviation loop_body := (loop_body same_object).
Local Abbreviation for_loop := (for_loop same_object).
Local Abbreviation scan := (scan same_object).
Local Abbreviation while_loop := (while_loop same_object).
Local Abbreviation get_vmu_packet_fuel := (get_vmu_packet_fuel same_object).
Local Abbreviation get_vmu_packet := (get_vmu_packet same_object).
Local Abbreviation buffer_after := (buffer_after same_object).

(** The scan of a buffer whose first 0x01 starts a frame of the wanted
    type, with a tag the interpreter finds identical to the wanted one,
    ends the way the decoding of the payload ends. *)
Lemma scan_wanted_frame (m_type : string) (L T : byte)
    (pre payload post : list byte) :
  getitem message_types m_type = Ok (chr T) ->
  same_object (chr T) (chr T) = true ->
  ord L = len payload + 4 ->
  20 <= len ([L; T] ++ payload ++ [x04] ++ post) ->
  Forall (fun b => b <> x01) pre ->
  scan m_type (pre ++ frame L T payload ++ post)
  = match decode_motion payload with
    | Ok t => Returned t
    | Raise e => Raised e
    end.
Proof.
  intros Htag Hsame HL Hroom Hpre. unfold scan.
  set (data := pre ++ frame L T payload ++ post).
  unfold data at 1. rewrite for_loop_skip by exact Hpre.
  unfold frame. cbn [app]. rewrite for_loop_cons, Z.add_0_l.
  assert (Hlen : 20 < len data - len pre).
  { unfold data. rewrite frame_layout, !len_app in *.
    change (len [x01; L; T]) with 3. change (len [L; T]) with 2 in Hroom.
    rewrite len_cons. change (len [x04]) with 1 in Hroom. lia. }
  rewrite loop_body_candidate by (auto using len_nonneg).
  unfold data. rewrite try_block_frame by exact HL.
  unfold frame_wanted. change (ord x04 =? 4) with true. cbv beta iota.
  rewrite Htag, Hsame.
  destruct (decode_motion payload); reflexivity.
Qed.

(** A frame of the wanted type, with a tag the interpreter finds
    identical to the wanted one, whose payload has fewer than 16 bytes is
    not skipped: the [struct.error] of unpacking it leaves the scan. *)
Theorem scan_short_wanted_frame_raises (m_type : string) (L T : byte)
    (pre payload post : list byte) :
  getitem message_types m_type = Ok (chr T) ->
  same_object (chr T) (chr T) = true ->
  ord L = len payload + 4 ->
  20 <= len ([L; T] ++ payload ++ [x04] ++ post) ->
  Forall (fun b => b <> x01) pre ->
  len payload < 16 ->
  scan m_type (pre ++ frame L T payload ++ post) = Raised StructError.
Proof.
  intros Htag Hsame HL Hroom Hpre Hshort.
  rewrite scan_wanted_frame by assumption.
  now rewrite decode_motion_short.
Qed.

(** A start marker with more than 20 bytes after it whose declared
    length points past the end of the buffer does not wait for more
    bytes: the whole buffer is thrown away. *)
Theorem scan_truncated_candidate_empties_buffer (m_type : string)
    (L : byte) (pre rest : list byte) :
  Forall (fun b => b <> x01) pre ->
  19 <= len rest ->
  len rest + 2 <= ord L - 1 ->
  scan m_type (pre ++ x01 :: L :: rest) = Next [].
Proof.
  intros Hpre Hroom Hpast. unfold scan.
  set (data := pre ++ x01 :: L :: rest).
  unfold data at 1. rewrite for_loop_skip by exact Hpre.
  rewrite for_loop_cons, Z.add_0_l.
  pose proof (len_nonneg pre) as Hp.
  assert (Hlen : len data = len pre + (2 + len rest)).
  { unfold data. rewrite len_app, !len_cons. lia. }
  rewrite loop_body_candidate by lia.
  assert (H1 : index data (len pre + 1) = Some L)
    by exact (index_middle pre [x01] L rest).
  destruct (index_in_range data (len pre + 2)) as [b2 H2]; [lia|].
  unfold try_block. rewrite H1, H2. cbv beta iota zeta.
  rewrite index_out_of_range by lia. reflexivity.
Qed.

Lemma index_last {A} (body : list A) (e : A) :
  index (body ++ [e]) (-1) = Some e.
Proof.
  unfold index. change (-1 <? 0) with true. cbv beta iota.
  rewrite len_app. change (len [e]) with 1.
  pose proof (len_nonneg body).
  destruct (Z.leb_spec 0 (-1 + (len body + 1))); [|lia].
  destruct (Z.ltb_spec (-1 + (len body + 1)) (len body + 1)); [|lia].
  cbn [andb]. replace (Z.to_nat (-1 + (len body + 1))) with (List.length body)
    by (unfold len; lia).
  rewrite nth_error_app2, Nat.sub_diag by lia. reflexivity.
Qed.

Lemma slice_from_last {A} (body : list A) (e : A) :
  slice_from (body ++ [e]) (-1) = [e].
Proof.
  unfold slice_from, clamp. change (-1 <? 0) with true. cbv beta iota.
  rewrite len_app. change (len [e]) with 1.
  pose proof (len_nonneg body).
  rewrite Z.max_l by lia.
  replace (Z.to_nat (-1 + (len body + 1))) with (List.length body)
    by (unfold len; lia).
  rewrite skipn_app, skipn_all, Nat.sub_diag. reflexivity.
Qed.

(** A start marker at the very beginning of the buffer with declared
    length 0 puts the terminator at position [-1], which Python reads as
    the last byte of the buffer.  When that byte is not 0x04 the buffer
    is cut down to that one byte. *)
Theorem zero_length_candidate_reads_last_byte (m_type : string)
    (body : list byte) (e : byte) :
  20 <= len body ->
  index (body ++ [e]) 1 = Some x00 ->
  e <> x04 ->
  loop_body m_type 0 x01 (body ++ [e]) = BContinue [e].
Proof.
  intros Hlen H1 He.
  rewrite loop_body_candidate
    by (rewrite ?len_app; change (len [e]) with 1; lia).
  destruct (index_in_range (body ++ [e]) 2) as [b2 H2];
    [rewrite len_app; change (len [e]) with 1; lia|].
  unfold try_block.
  change (0 + 1) with 1. change (0 + 2) with 2. rewrite H1, H2.
  cbv beta iota zeta.
  change (0 + 3 + (ord x00 - 4)) with (-1).
  rewrite index_last. cbv beta iota.
  unfold frame_wanted.
  destruct (ord e =? 4) eqn:E.
  - exfalso. apply He. apply ord_eqb. exact E.
  - now rewrite slice_from_last.
Qed.

End ScanCandidates.

Section ScanCandidatesRuns.

Import VMU931CDCDriver.

Local Abbreviation frame_wanted := (frame_wanted cpython311).
Local Abbreviation loop_body := (loop_body cpython311).
Local Abbreviation for_loop := (for_loop cpython311).
Local Abbreviation scan := (scan cpython311).
Local Abbreviation while_loop := (while_loop cpython311).
Local Abbreviation get_vmu_packet_fuel := (get_vmu_packet_fuel cpython311).
Local Abbreviation get_vmu_packet := (get_vmu_packet cpython311).
Local Abbreviation buffer_after := (buffer_after cpython311).

Lemma scan_short_wanted_frame_witness :
  scan "gyro"
    ([x00; x07] ++ frame x0b x67 [x07; x20; x01; x00; x00; x00; x02]
     ++ repeat x00 12)
  = Raised StructError.
Proof.
  apply (scan_short_wanted_frame_raises cpython311 "gyro" x0b x67 [x00; x07]
           [x07; x20; x01; x00; x00; x00; x02] (repeat x00 12)).
  - reflexivity.
  - reflexivity.
  - reflexivity.
  - vm_compute. discriminate.
  - repeat constructor; discriminate.
  - vm_compute. reflexivity.
Defined.

Lemma scan_truncated_candidate_witness :
  scan "gyro" ([x00; x00] ++ x01 :: x28 :: repeat x07 30) = Next [].
Proof.
  apply (scan_truncated_candidate_empties_buffer cpython311 "gyro" x28 [x00; x00]
           (repeat x07 30)).
  - repeat constructor; discriminate.
  - vm_compute. discriminate.
  - vm_compute. discriminate.
Defined.

Lemma zero_length_candidate_witness :
  loop_body "gyro" 0 x01 ((x01 :: x00 :: repeat x33 20) ++ [x09])
  = BContinue [x09].
Proof.
  apply (zero_length_candidate_reads_last_byte cpython311 "gyro"
           (x01 :: x00 :: repeat x33 20) x09).
  - vm_compute. discriminate.
  - reflexivity.
  - discriminate.
Defined.

End ScanCandidatesRuns.

Section ScanCalls.

Import VMU931CDCDriver.

Variable same_object : identity.

Local Abbreviation frame_wanted := (frame_wanted same_object).
Local Abbreviation loop_body := (loop_body same_object).
Local Abbreviation for_loop := (for_loop same_object).
Local Abbreviation scan := (scan same_object).
Local Abbreviation while_loop := (while_loop same_object).
Local Abbreviation get_vmu_packet_fuel := (get_vmu_packet_fuel same_object).
Local Abbreviation get_vmu_packet := (get_vmu_packet same_object).
Local Abbreviation buffer_after := (buffer_after same_object).

Lemma loop_body_unknown_type m_type e i c data t :
  getitem message_types m_type = Raise e ->
  loop_body m_type i c data <> BReturn t.
Proof.
  intros Hkey. unfold loop_body.
  destruct ((ord c =? 1) && (20 <? len (slice_from data i)));
    [|discriminate].
  destruct (try_block data i) as [[[[ms mt] msg] me]|]; [|discriminate].
  unfold frame_wanted. rewrite Hkey.
  destruct (ord me =? 4); discriminate.
Qed.

Lemma for_loop_unknown_type m_type e t :
  getitem message_types m_type = Raise e ->
  forall it i data, for_loop m_type it i data <> Returned t.
Proof.
  intros Hkey. induction it as [|c it IH]; intros i data; [discriminate|].
  rewrite for_loop_cons.
  destruct (loop_body m_type i c data) as [d|d|t'|e'] eqn:E;
    try discriminate.
  - apply IH.
  - exfalso. exact (loop_body_unknown_type _ _ _ _ _ _ Hkey E).
Qed.

Lemma while_loop_unknown_type rd m_type e t :
  getitem message_types m_type = Raise e ->
  forall fuel n iter_count data n',
    while_loop fuel rd m_type n iter_count data
    <> Some (Value (Some t), n').
Proof.
  intros Hkey. induction fuel as [|fuel IH]; intros n ic data n';
    [discriminate|].
  cbn [while_loop]. cbv zeta.
  destruct (ic + 1 >? 5000); [discriminate|].
  destruct (rd n) as [chunk|e']; [|discriminate].
  destruct (scan m_type (data ++ chunk)) as [d|t'|e'] eqn:E;
    try discriminate.
  - apply IH.
  - exfalso. exact (for_loop_unknown_type _ _ _ Hkey _ _ _ E).
Qed.

(** With a message type that is not a key of [message_types] the call
    never returns a tuple: it ends with [None] or with an exception. *)
Theorem get_vmu_packet_unknown_type_returns_no_tuple
    (device : bool) (rd : reader) (m_type : string) (e : exn)
    (o : outcome) (n : nat) :
  getitem message_types m_type = Raise e ->
  get_vmu_packet device rd m_type = Some (o, n) ->
  o = Value None \/ exists e', o = Exception e'.
Proof.
  intros Hkey H.
  destruct o as [[t|]|e']; [exfalso|now left|right; eauto].
  unfold get_vmu_packet, get_vmu_packet_fuel in H.
  destruct device; cbn [negb] in H; [|discriminate].
  exact (while_loop_unknown_type rd m_type e t Hkey _ _ _ _ _ H).
Qed.

(** With such a message type the dict is consulted, and KeyError raised,
    as soon as a start marker is met whose terminator position holds
    0x04, whatever the type of that frame. *)
Theorem scan_unknown_type_raises_at_terminated_frame
    (m_type : string) (e : exn) (L T : byte)
    (pre payload post : list byte) :
  getitem message_types m_type = Raise e ->
  ord L = len payload + 4 ->
  20 <= len ([L; T] ++ payload ++ [x04] ++ post) ->
  Forall (fun b => b <> x01) pre ->
  scan m_type (pre ++ frame L T payload ++ post) = Raised e.
Proof.
  intros Hkey HL Hroom Hpre. unfold scan.
  set (data := pre ++ frame L T payload ++ post).
  unfold data at 1. rewrite for_loop_skip by exact Hpre.
  unfold frame. cbn [app]. rewrite for_loop_cons, Z.add_0_l.
  assert (Hlen : 20 < len data - len pre).
  { unfold data. rewrite frame_layout, !len_app in *.
    change (len [x01; L; T]) with 3. change (len [L; T]) with 2 in Hroom.
    rewrite len_cons. change (len [x04]) with 1 in Hroom. lia. }
  rewrite loop_body_candidate by (auto using len_nonneg).
  unfold data. rewrite try_block_frame by exact HL.
  unfold frame_wanted. change (ord x04 =? 4) with true. cbv beta iota.
  now rewrite Hkey.
Qed.

Lemma while_loop_follow (rd : reader) (m_type : string) :
  forall (j n fuel : nat) (data data_j : list byte),
    buffer_after rd m_type n = Some data ->
    buffer_after rd m_type (n + j) = Some data_j ->
    Z.of_nat (n + j) <= 5000 ->
    (j <= fuel)%nat ->
    while_loop fuel rd m_type n (Z.of_nat n) data
    = while_loop (fuel - j) rd m_type (n + j) (Z.of_nat (n + j)) data_j.
Proof.
  induction j as [|j IH]; intros n fuel data data_j Hn Hj Hcap Hfuel.
  - rewrite Nat.add_0_r in *. rewrite Hn in Hj. injection Hj as <-.
    now rewrite Nat.sub_0_r.
  - destruct fuel as [|fuel]; [lia|].
    assert (Hnext : buffer_after rd m_type (S n) <> None).
    { apply buffer_after_earlier with (j := j).
      rewrite Nat.add_succ_l, <- Nat.add_succ_r, Hj. discriminate. }
    cbn [buffer_after] in Hnext. rewrite Hn in Hnext.
    cbn [while_loop]. cbv zeta.
    destruct (Z.gtb_spec (Z.of_nat n + 1) 5000) as [Hgt|_]; [lia|].
    destruct (rd n) as [chunk|e] eqn:Erd; [|congruence].
    destruct (scan m_type (data ++ chunk)) as [d|t|e] eqn:Escan;
      try congruence.
    replace (Z.of_nat n + 1) with (Z.of_nat (S n)) by lia.
    rewrite (IH (S n) fuel d data_j).
    + cbn [Nat.sub]. now rewrite Nat.add_succ_l, <- Nat.add_succ_r.
    + cbn [buffer_after]. now rewrite Hn, Erd, Escan.
    + now rewrite Nat.add_succ_l, <- Nat.add_succ_r.
    + rewrite Nat.add_succ_l, <- Nat.add_succ_r. exact Hcap.
    + lia.
Qed.

(** The call from the read that follows [k] fruitless scans. *)
Lemma get_vmu_packet_at_pass (rd : reader) (m_type : string) (k : nat)
    (data : list byte) :
  Z.of_nat k < 5000 ->
  buffer_after rd m_type k = Some data ->
  get_vmu_packet true rd m_type =
    match rd k with
    | Raise e => Some (Exception e, S k)
    | Ok chunk =>
        match scan m_type (data ++ chunk) with
        | Next d =>
            while_loop (Z.to_nat 5000 - k) rd m_type (S k)
              (Z.of_nat k + 1) d
        | Returned t => Some (Value (Some t), S k)
        | Raised e => Some (Exception e, S k)
        end
    end.
Proof.
  intros Hk Hdata. unfold get_vmu_packet, get_vmu_packet_fuel. cbn [negb].
  change (while_loop (Z.to_nat 5001) rd m_type 0 0 [])
    with (while_loop (Z.to_nat 5001) rd m_type 0 (Z.of_nat 0) []).
  rewrite (while_loop_follow rd m_type k O (Z.to_nat 5001) [] data);
    try (reflexivity || assumption || lia).
  cbn [Nat.add].
  replace (Z.to_nat 5001 - k)%nat with (S (Z.to_nat 5000 - k)) by lia.
  cbn [while_loop]. cbv zeta.
  destruct (Z.gtb_spec (Z.of_nat k + 1) 5000) as [Hgt|_]; [lia|].
  reflexivity.
Qed.

(** The call returns the tuple of the first scan that finds a frame, and
    has then read once per scan. *)
Theorem get_vmu_packet_returns_first_frame (rd : reader) (m_type : string)
    (k : nat) (data chunk : list byte) (t : motion) :
  Z.of_nat k < 5000 ->
  buffer_after rd m_type k = Some data ->
  rd k = Ok chunk ->
  scan m_type (data ++ chunk) = Returned t ->
  get_vmu_packet true rd m_type = Some (Value (Some t), S k).
Proof.
  intros Hk Hdata Hrd Hscan.
  rewrite (get_vmu_packet_at_pass rd m_type k data Hk Hdata).
  now rewrite Hrd, Hscan.
Qed.

(** An exception of the endpoint leaves the call as it is, whenever it
    comes before the cap and before a frame. *)
Theorem get_vmu_packet_propagates_read_error (rd : reader)
    (m_type : string) (k : nat) (data : list byte) (e : exn) :
  Z.of_nat k < 5000 ->
  buffer_after rd m_type k = Some data ->
  rd k = Raise e ->
  get_vmu_packet true rd m_type = Some (Exception e, S k).
Proof.
  intros Hk Hdata Hrd.
  rewrite (get_vmu_packet_at_pass rd m_type k data Hk Hdata).
  now rewrite Hrd.
Qed.

(** A frame that arrives in two reads, with a tag the interpreter finds
    identical to the wanted one, is recovered at the second read when the
    first read brought at most 20 bytes: the first scan leaves the buffer
    alone and the second sees the whole frame. *)
Theorem get_vmu_packet_recovers_split_frame (rd : reader)
    (m_type : string) (L T : byte) (pre payload post c1 c2 : list byte) :
  rd O = Ok c1 ->
  rd 1%nat = Ok c2 ->
  len c1 <= 20 ->
  c1 ++ c2 = pre ++ frame L T payload ++ post ->
  getitem message_types m_type = Ok (chr T) ->
  same_object (chr T) (chr T) = true ->
  ord L = len payload + 4 ->
  20 <= len ([L; T] ++ payload ++ [x04] ++ post) ->
  Forall (fun b => b <> x01) pre ->
  get_vmu_packet true rd m_type
  = Some (match decode_motion payload with
          | Ok t => Value (Some t)
          | Raise e => Exception e
          end, 2%nat).
Proof.
  intros H0 H1 Hshort Hsplit Htag Hsame HL Hroom Hpre.
  assert (Hfirst : buffer_after rd m_type 1 = Some c1).
  { cbn [buffer_after]. rewrite H0. cbn [app].
    unfold scan. rewrite for_loop_no_candidate; [reflexivity|lia|].
    intros j _. lia. }
  rewrite (get_vmu_packet_at_pass rd m_type 1 c1 ltac:(lia) Hfirst).
  rewrite H1, Hsplit, scan_wanted_frame by assumption.
  destruct (decode_motion payload); reflexivity.
Qed.

Lemma loop_body_no_identity m_type tag i c data t :
  getitem message_types m_type = Ok tag ->
  (forall a, same_object a tag = false) ->
  loop_body m_type i c data <> BReturn t.
Proof.
  intros Hkey Hnot. unfold loop_body.
  destruct ((ord c =? 1) && (20 <? len (slice_from data i)));
    [|discriminate].
  destruct (try_block data i) as [[[[ms mt] msg] me]|]; [|discriminate].
  unfold frame_wanted. rewrite Hkey, Hnot.
  destruct (ord me =? 4); discriminate.
Qed.

Lemma for_loop_no_identity m_type tag t :
  getitem message_types m_type = Ok tag ->
  (forall a, same_object a tag = false) ->
  forall it i data, for_loop m_type it i data <> Returned t.
Proof.
  intros Hkey Hnot. induction it as [|c it IH]; intros i data;
    [discriminate|].
  rewrite for_loop_cons.
  destruct (loop_body m_type i c data) as [d|d|t'|e'] eqn:E;
    try discriminate.
  - apply IH.
  - exfalso. exact (loop_body_no_identity _ _ _ _ _ _ Hkey Hnot E).
Qed.

Lemma while_loop_no_identity rd m_type tag t :
  getitem message_types m_type = Ok tag ->
  (forall a, same_object a tag = false) ->
  forall fuel n iter_count data n',
    while_loop fuel rd m_type n iter_count data
    <> Some (Value (Some t), n').
Proof.
  intros Hkey Hnot. induction fuel as [|fuel IH]; intros n ic data n';
    [discriminate|].
  cbn [while_loop]. cbv zeta.
  destruct (ic + 1 >? 5000); [discriminate|].
  destruct (rd n) as [chunk|e']; [|discriminate].
  destruct (scan m_type (data ++ chunk)) as [d|t'|e'] eqn:E;
    try discriminate.
  - apply IH.
  - exfalso. exact (for_loop_no_identity _ _ _ Hkey Hnot _ _ _ E).
Qed.

(** When the interpreter does not find the string [chr] builds for the
    wanted tag to be the object the dict holds for it (on CPython 3.11
    this is so for euler, the default, and for magnet and accel), the call
    never returns a tuple: frames of the wanted type are passed over like
    any other, and the call ends with [None] or with an exception. *)
Theorem get_vmu_packet_returns_no_tuple_without_identity
    (device : bool) (rd : reader) (m_type : string) (tag : ascii)
    (o : outcome) (n : nat) :
  sound same_object ->
  getitem message_types m_type = Ok tag ->
  same_object tag tag = false ->
  get_vmu_packet device rd m_type = Some (o, n) ->
  o = Value None \/ exists e, o = Exception e.
Proof.
  intros Hsound Hkey Hnot H.
  destruct o as [[t|]|e']; [exfalso|now left|right; eauto].
  unfold get_vmu_packet, get_vmu_packet_fuel in H.
  destruct device; cbn [negb] in H; [|discriminate].
  exact (while_loop_no_identity rd m_type tag t Hkey
           (never_same same_object tag Hsound Hnot) _ _ _ _ _ H).
Qed.

End ScanCalls.

Section ScanCallsRuns.

Import VMU931CDCDriver.

Local Abbreviation frame_wanted := (frame_wanted cpython311).
Local Abbreviation loop_body := (loop_body cpython311).
Local Abbreviation for_loop := (for_loop cpython311).
Local Abbreviation scan := (scan cpython311).
Local Abbreviation while_loop := (while_loop cpython311).
Local Abbreviation get_vmu_packet_fuel := (get_vmu_packet_fuel cpython311).
Local Abbreviation get_vmu_packet := (get_vmu_packet cpython311).
Local Abbreviation buffer_after := (buffer_after cpython311).

Lemma get_vmu_packet_unknown_type_witness :
  Exception KeyError = Value None \/
  exists e', Exception KeyError = Exception e'.
Proof.
  apply (get_vmu_packet_unknown_type_returns_no_tuple cpython311 true
           (fun _ =>
              Ok (frame x14 x67
                    [x00; x00; x03; xe8; x3f; xc0; x00; x00;
                     xc0; x10; x00; x00; x00; x00; x00; x00] ++ [x00]))
           "status" KeyError (Exception KeyError) 1%nat).
  - reflexivity.
  - vm_compute. reflexivity.
Defined.

Lemma scan_unknown_type_witness :
  scan "status"
    ([x00] ++ frame x0b x73 [x07; x20; x01; x00; x00; x00; x02]
     ++ repeat x00 12)
  = Raised KeyError.
Proof.
  apply (scan_unknown_type_raises_at_terminated_frame cpython311 "status" KeyError
           x0b x73 [x00] [x07; x20; x01; x00; x00; x00; x02]
           (repeat x00 12)).
  - reflexivity.
  - reflexivity.
  - vm_compute. discriminate.
  - repeat constructor; discriminate.
Defined.

Lemma get_vmu_packet_returns_first_frame_witness :
  get_vmu_packet true
    (fun n =>
       match n with
       | O => Ok [x00]
       | _ => Ok (frame x14 x67
                    [x00; x00; x03; xe8; x3f; xc0; x00; x00;
                     xc0; x10; x00; x00; x00; x00; x00; x00] ++ [x00])
       end)
    "gyro"
  = Some (Value (Some (1000, S754_finite false 12582912 (-23),
                       S754_finite true 9437184 (-22), S754_zero false)),
          2%nat).
Proof.
  apply (get_vmu_packet_returns_first_frame cpython311 _ "gyro" 1 [x00]
           (frame x14 x67
              [x00; x00; x03; xe8; x3f; xc0; x00; x00;
               xc0; x10; x00; x00; x00; x00; x00; x00] ++ [x00])).
  - lia.
  - reflexivity.
  - reflexivity.
  - reflexivity.
Defined.

Lemma get_vmu_packet_propagates_read_error_witness :
  get_vmu_packet true
    (fun n => match n with O => Ok [x01; x14] | _ => Raise TransportError end)
    "gyro"
  = Some (Exception TransportError, 2%nat).
Proof.
  apply (get_vmu_packet_propagates_read_error cpython311 _ "gyro" 1 [x01; x14]).
  - lia.
  - reflexivity.
  - reflexivity.
Defined.

Lemma get_vmu_packet_recovers_split_frame_witness :
  get_vmu_packet true
    (fun n =>
       match n with
       | O => Ok [x00; x01; x14; x67; x00; x00; x03; xe8]
       | _ => Ok [x3f; xc0; x00; x00; xc0; x10; x00; x00;
                  x00; x00; x00; x00; x04; x00; x00]
       end)
    "gyro"
  = Some (Value (Some (1000, S754_finite false 12582912 (-23),
                       S754_finite true 9437184 (-22), S754_zero false)),
          2%nat).
Proof.
  apply (get_vmu_packet_recovers_split_frame cpython311 _ "gyro" x14 x67 [x00]
           [x00; x00; x03; xe8; x3f; xc0; x00; x00;
            xc0; x10; x00; x00; x00; x00; x00; x00]
           [x00; x00]
           [x00; x01; x14; x67; x00; x00; x03; xe8]
           [x3f; xc0; x00; x00; xc0; x10; x00; x00;
            x00; x00; x00; x00; x04; x00; x00]).
  - reflexivity.
  - reflexivity.
  - vm_compute. discriminate.
  - reflexivity.
  - reflexivity.
  - reflexivity.
  - reflexivity.
  - vm_compute. discriminate.
  - repeat constructor; discriminate.
Defined.

Lemma get_vmu_packet_times_out_witness :
  get_vmu_packet true (fun _ => Ok []) "gyro"
  = Some (Value None, Z.to_nat 5000).
Proof.
  apply get_vmu_packet_times_out. vm_compute. discriminate.
Defined.

Lemma get_vmu_packet_no_tuple_without_identity_witness :
  Exception TransportError = Value None \/
  exists e, Exception TransportError = Exception e.
Proof.
  apply (get_vmu_packet_returns_no_tuple_without_identity cpython311 true
           (fun n =>
              match n with
              | O => Ok (frame x14 x65
                           [x00; x00; x03; xe8; x3f; xc0; x00; x00;
                            xc0; x10; x00; x00; x00; x00; x00; x00]
                         ++ [x00])
              | _ => Raise TransportError
              end)
           "euler" "e"%char (Exception TransportError) 2%nat).
  - exact cpython311_sound.
  - reflexivity.
  - reflexivity.
  - vm_compute. reflexivity.
Defined.

End ScanCallsRuns.

(** ** More on decoding *)

Section DecodedValues.

Import VMU931Driver.

Lemma byte_at_range (payload : list byte) (k : nat) :
  0 <= byte_at payload k <= 255.
Proof. apply ord_range. Qed.

Lemma word_at_range (payload : list byte) (k : nat) :
  0 <= word_at payload k < 2 ^ 32.
Proof.
  unfold word_at.
  pose proof (byte_at_range payload k).
  pose proof (byte_at_range payload (k + 1)).
  pose proof (byte_at_range payload (k + 2)).
  pose proof (byte_at_range payload (k + 3)).
  change (2 ^ 32) with 4294967296. change (2 ^ 24) with 16777216.
  change (2 ^ 16) with 65536. change (2 ^ 8) with 256. lia.
Qed.

(** Whatever tuple the motion decoder returns, its timestamp is an
    unsigned 32-bit number and its three values are valid binary32
    numbers (finite, infinite or not-a-number; never out of the format). *)
Theorem decode_motion_values_in_range (payload : list byte)
    (ts : Z) (x y z : spec_float) :
  decode_motion payload = Ok (ts, x, y, z) ->
  0 <= ts < 2 ^ 32 /\
  valid_binary 24 128 x = true /\
  valid_binary 24 128 y = true /\
  valid_binary 24 128 z = true.
Proof.
  intros H.
  destruct (Z.lt_ge_cases (len payload) 16) as [Hs|Hl].
  - rewrite decode_motion_short in H by exact Hs. discriminate.
  - rewrite decode_motion_fields in H by exact Hl.
    injection H as <- <- <- <-.
    split; [apply word_at_range|].
    repeat split; apply b32_of_bits_valid.
Qed.

Lemma decode_motion_values_witness :
  0 <= 1000 < 2 ^ 32 /\
  valid_binary 24 128 (S754_finite false 12582912 (-23)) = true /\
  valid_binary 24 128 (S754_finite true 9437184 (-22)) = true /\
  valid_binary 24 128 (S754_zero false) = true.
Proof.
  apply (decode_motion_values_in_range
           [x00; x00; x03; xe8; x3f; xc0; x00; x00;
            xc0; x10; x00; x00; x00; x00; x00; x00]).
  reflexivity.
Defined.

Lemma slice_to_app_long {A} (l extra : list A) (k : Z) :
  0 <= k <= len l -> slice_to (l ++ extra) k = slice_to l k.
Proof.
  intros Hk. rewrite !slice_to_nonneg by lia.
  rewrite firstn_app.
  replace (Z.to_nat k - List.length l)%nat with O by (unfold len in Hk; lia).
  cbn [firstn]. apply app_nil_r.
Qed.

(** The motion decoder reads the first 16 bytes only: bytes after them
    change nothing. *)
Theorem decode_motion_ignores_tail (payload extra : list byte) :
  16 <= len payload ->
  decode_motion (payload ++ extra) = decode_motion payload.
Proof.
  intros H. unfold decode_motion. now rewrite slice_to_app_long by lia.
Qed.

Lemma decode_motion_ignores_tail_witness :
  decode_motion
    ([x00; x00; x03; xe8; x3f; xc0; x00; x00;
      xc0; x10; x00; x00; x00; x00; x00; x00] ++ [xff; xff])
  = decode_motion
      [x00; x00; x03; xe8; x3f; xc0; x00; x00;
       xc0; x10; x00; x00; x00; x00; x00; x00].
Proof.
  apply decode_motion_ignores_tail. vm_compute. discriminate.
Defined.

Lemma low_bit_of_word (a b c d : byte) (k : Z) :
  0 <= k < 8 ->
  Z.testbit (be_uint [a; b; c; d]) k = Z.testbit (ord d) k.
Proof.
  intros Hk. rewrite be_uint_4.
  rewrite <- (Z.mod_pow2_bits_low _ 8 k) by lia.
  f_equal.
  replace (ord a * 2 ^ 24 + ord b * 2 ^ 16 + ord c * 2 ^ 8 + ord d)
    with (ord d + (ord a * 2 ^ 16 + ord b * 2 ^ 8 + ord c) * 2 ^ 8)
    by (change (2 ^ 24) with 16777216; change (2 ^ 16) with 65536;
        change (2 ^ 8) with 256; lia).
  rewrite Z.mod_add by (change (2 ^ 8) with 256; lia).
  apply Z.mod_small. pose proof (ord_range d).
  change (2 ^ 8) with 256. lia.
Qed.

(** Of a status payload the parser uses bytes 0, 1, 2 and 6 only.  The
    streaming flags are bits of the 32-bit word at bytes 3 to 6, but all
    the masks lie in its lowest byte: bytes 3, 4 and 5, and every byte
    after the seventh, have no influence on the result. *)
Theorem parse_status_message_uses_four_bytes
    (b0 b1 b2 b3 b4 b5 b6 c3 c4 c5 : byte) (rest : list byte) :
  _parse_status_message (b0 :: b1 :: b2 :: b3 :: b4 :: b5 :: b6 :: rest)
  = _parse_status_message [b0; b1; b2; c3; c4; c5; b6].
Proof.
  rewrite !parse_status_cons.
  rewrite !bit_set_64, !bit_set_16, !bit_set_8, !bit_set_4, !bit_set_2,
    !bit_set_1.
  rewrite !low_bit_of_word by lia. reflexivity.
Qed.

End DecodedValues.

(** ** More on reconfiguration *)

Section ReconfigurationErrors.

Import VMU931Driver.

Lemma sent_nil (p : port) : sent p [] = p.
Proof. destruct p. unfold sent. cbn. now rewrite app_nil_r. Qed.

Lemma set_gyro_resolution_code (resolution : option Z) (p : port) :
  set_gyro_resolution resolution p =
    match resolution_code gyro_resolutions resolution with
    | Some code => (Ok tt, sent p [("var" ++ format_int code)%string])
    | None => (Raise ValueError, p)
    end.
Proof.
  unfold set_gyro_resolution, resolution_code.
  destruct resolution as [r|]; [|reflexivity].
  destruct (get gyro_resolutions r); reflexivity.
Qed.

Lemma set_accelerometer_resolution_code (resolution : option Z) (p : port) :
  set_accelerometer_resolution resolution p =
    match resolution_code accelerometer_resolutions resolution with
    | Some code => (Ok tt, sent p [("var" ++ format_int code)%string])
    | None => (Raise ValueError, p)
    end.
Proof.
  unfold set_accelerometer_resolution, resolution_code.
  destruct resolution as [r|]; [|reflexivity].
  destruct (get accelerometer_resolutions r); reflexivity.
Qed.

Lemma set_configuration_gyro_unsupported (cur new : configuration)
    (p : port) :
  resolution_code gyro_resolutions (gyroscope_resolution new) = None ->
  set_configuration (Some cur) (Some new) p = (Raise ValueError, p).
Proof.
  intros H. unfold set_configuration, bind at 1.
  now rewrite set_gyro_resolution_code, H.
Qed.

Lemma set_configuration_acc_unsupported (cur new : configuration)
    (p : port) (gcode : Z) :
  resolution_code gyro_resolutions (gyroscope_resolution new) = Some gcode ->
  resolution_code accelerometer_resolutions (accelerometer_resolution new)
  = None ->
  set_configuration (Some cur) (Some new) p
  = (Raise ValueError, sent p [("var" ++ format_int gcode)%string]).
Proof.
  intros Hg Ha. unfold set_configuration, bind at 1.
  rewrite set_gyro_resolution_code, Hg. unfold bind at 1.
  now rewrite set_accelerometer_resolution_code, Ha.
Qed.

Lemma set_configuration_supported (cur new : configuration) (p : port)
    (gcode acode : Z) :
  resolution_code gyro_resolutions (gyroscope_resolution new) = Some gcode ->
  resolution_code accelerometer_resolutions (accelerometer_resolution new)
  = Some acode ->
  set_configuration (Some cur) (Some new) p
  = (Ok tt,
     sent p ([("var" ++ format_int gcode)%string;
              ("var" ++ format_int acode)%string]
             ++ toggle_commands cur new)).
Proof.
  unfold resolution_code. intros Hg Ha.
  destruct (gyroscope_resolution new) as [g|] eqn:Eg; [|discriminate].
  destruct (accelerometer_resolution new) as [a|] eqn:Ea; [|discriminate].
  now apply set_configuration_sends with (g := g) (a := a).
Qed.

(** The call never completes unless both arguments are configurations
    and both desired resolutions are keys of their tables: the guards sit
    before every write. *)
Theorem set_configuration_succeeds_only_if_supported
    (current_configuration new_configuration : option configuration)
    (p : port) :
  fst (set_configuration current_configuration new_configuration p) = Ok tt ->
  exists cur new,
    current_configuration = Some cur /\
    new_configuration = Some new /\
    resolution_code gyro_resolutions (gyroscope_resolution new) <> None /\
    resolution_code accelerometer_resolutions (accelerometer_resolution new)
    <> None.
Proof.
  destruct current_configuration as [cur|], new_configuration as [new|];
    try discriminate.
  intros H. exists cur, new. split; [reflexivity|]. split; [reflexivity|].
  destruct (resolution_code gyro_resolutions (gyroscope_resolution new))
    as [gc|] eqn:Eg.
  - destruct (resolution_code accelerometer_resolutions
                (accelerometer_resolution new)) as [ac|] eqn:Ea.
    + split; discriminate.
    + rewrite (set_configuration_acc_unsupported cur new p gc Eg Ea) in H.
      discriminate.
  - rewrite (set_configuration_gyro_unsupported cur new p Eg) in H.
    discriminate.
Qed.

Lemma set_configuration_succeeds_only_if_supported_witness :
  exists cur new,
    Some basic_configuration = Some cur /\
    Some accel_and_heading = Some new /\
    resolution_code gyro_resolutions (gyroscope_resolution new) <> None /\
    resolution_code accelerometer_resolutions (accelerometer_resolution new)
    <> None.
Proof.
  apply (set_configuration_succeeds_only_if_supported
           (Some basic_configuration) (Some accel_and_heading) idle_port).
  reflexivity.
Defined.

(** When the desired gyroscope resolution is supported and the desired
    accelerometer resolution is not, the call raises ValueError after it
    has written the gyroscope command: the device is left half
    reconfigured and no toggle is sent. *)
Theorem set_configuration_fails_after_gyro_command
    (cur new : configuration) (p : port) (gcode : Z) :
  resolution_code gyro_resolutions (gyroscope_resolution new) = Some gcode ->
  resolution_code accelerometer_resolutions (accelerometer_resolution new)
  = None ->
  set_configuration (Some cur) (Some new) p
  = (Raise ValueError, sent p [("var" ++ format_int gcode)%string]).
Proof. apply set_configuration_acc_unsupported. Qed.

Lemma set_configuration_fails_after_gyro_witness :
  set_configuration (Some basic_configuration)
    (Some {| magnetometer_enabled := None;
             gyroscope_enabled := None;
             accelerometer_enabled := None;
             gyroscope_resolution := Some 1000;
             accelerometer_resolution := Some 3;
             low_output_rate := None;
             heading_streaming := true;
             euler_streaming := false;
             magnetometer_streaming := false;
             quaternion_streaming := false;
             gyroscope_streaming := true;
             accelerometer_streaming := false |})
    idle_port
  = (Raise ValueError, sent idle_port ["var2"%string]).
Proof.
  apply (set_configuration_fails_after_gyro_command basic_configuration
           _ idle_port 2); reflexivity.
Defined.

Lemma gyro_command_known (g code : Z) :
  get gyro_resolutions g = Some code ->
  In ("var" ++ format_int code)%string reconfiguration_commands.
Proof.
  unfold get, gyro_resolutions.
  repeat match goal with
         | |- context [if ?c then _ else _] => destruct c
         end; intros [= <-]; cbn; tauto.
Qed.

Lemma acc_command_known (a code : Z) :
  get accelerometer_resolutions a = Some code ->
  In ("var" ++ format_int code)%string reconfiguration_commands.
Proof.
  unfold get, accelerometer_resolutions.
  repeat match goal with
         | |- context [if ?c then _ else _] => destruct c
         end; intros [= <-]; cbn; tauto.
Qed.

Lemma toggle_commands_known (cur new : configuration) :
  Forall (fun c => In c reconfiguration_commands) (toggle_commands cur new).
Proof.
  apply Forall_forall. intros c Hc. apply toggle_commands_In in Hc.
  destruct Hc as [[-> _]|[[-> _]|[[-> _]|[[-> _]|[[-> _]|[-> _]]]]]];
    cbn; tauto.
Qed.

Lemma toggle_commands_length (cur new : configuration) :
  (List.length (toggle_commands cur new) <= 6)%nat.
Proof.
  unfold toggle_commands, toggle. rewrite !length_app.
  repeat match goal with
         | |- context [if ?c then _ else _] => destruct c
         end; cbn; lia.
Qed.

(** Whatever its arguments, the call only appends to what has been
    written and never reads from the port; it writes at most 8 commands,
    each one a set-resolution command or a toggle.  The status request
    is not among them. *)
Theorem set_configuration_only_writes_known_commands
    (current_configuration new_configuration : option configuration)
    (p : port) :
  exists commands,
    snd (set_configuration current_configuration new_configuration p)
    = sent p commands /\
    Forall (fun c => In c reconfiguration_commands) commands /\
    (List.length commands <= 8)%nat /\
    ~ In "vars"%string commands.
Proof.
  assert (Hvars : forall commands,
             Forall (fun c => In c reconfiguration_commands) commands ->
             ~ In "vars"%string commands).
  { intros commands Hall Hin.
    rewrite Forall_forall in Hall. specialize (Hall _ Hin).
    cbn in Hall. intuition discriminate. }
  assert (Hgoal : exists commands,
             snd (set_configuration current_configuration
                    new_configuration p) = sent p commands /\
             Forall (fun c => In c reconfiguration_commands) commands /\
             (List.length commands <= 8)%nat).
  { destruct current_configuration as [cur|], new_configuration as [new|];
      try (exists []; cbn; rewrite sent_nil; repeat split;
           [constructor | lia]).
    destruct (resolution_code gyro_resolutions (gyroscope_resolution new))
      as [gc|] eqn:Eg.
    - assert (Hgc : In ("var" ++ format_int gc)%string
                      reconfiguration_commands).
      { unfold resolution_code in Eg.
        destruct (gyroscope_resolution new); [|discriminate].
        exact (gyro_command_known _ _ Eg). }
      destruct (resolution_code accelerometer_resolutions
                  (accelerometer_resolution new)) as [ac|] eqn:Ea.
      + assert (Hac : In ("var" ++ format_int ac)%string
                        reconfiguration_commands).
        { unfold resolution_code in Ea.
          destruct (accelerometer_resolution new); [|discriminate].
          exact (acc_command_known _ _ Ea). }
        rewrite (set_configuration_supported cur new p gc ac Eg Ea).
        eexists. split; [reflexivity|]. split.
        * cbn [app]. apply Forall_cons; [exact Hgc|].
          apply Forall_cons; [exact Hac|]. apply toggle_commands_known.
        * cbn [app List.length].
          pose proof (toggle_commands_length cur new). lia.
      + rewrite (set_configuration_acc_unsupported cur new p gc Eg Ea).
        eexists. split; [reflexivity|]. split.
        * apply Forall_cons; [exact Hgc | constructor].
        * cbn. lia.
    - rewrite (set_configuration_gyro_unsupported cur new p Eg).
      exists []. cbn [snd]. rewrite sent_nil. repeat split;
        [constructor | cbn; lia]. }
  destruct Hgoal as (commands & H1 & H2 & H3).
  exists commands. repeat split; auto.
Qed.

End ReconfigurationErrors.

Section StatusIntoReconfiguration.

Import VMU931Driver.

Lemma gyro_chain_supported (b : byte) :
  (Z.shiftr (ord b) 4 = 0 /\
   resolution_code gyro_resolutions (gyro_chain (ord b)) = None) \/
  (Z.shiftr (ord b) 4 <> 0 /\
   exists code,
     resolution_code gyro_resolutions (gyro_chain (ord b)) = Some code).
Proof.
  destruct b; vm_compute;
    solve [ left; split; reflexivity
          | right; split; [discriminate | eauto] ].
Qed.

Lemma acc_chain_supported (b : byte) :
  (Z.land (ord b) 15 = 0 /\
   resolution_code accelerometer_resolutions (acc_chain (ord b)) = None) \/
  (Z.land (ord b) 15 <> 0 /\
   exists code,
     resolution_code accelerometer_resolutions (acc_chain (ord b))
     = Some code).
Proof.
  destruct b; vm_compute;
    solve [ left; split; reflexivity
          | right; split; [discriminate | eauto] ].
Qed.

(** A status the parser has decoded can be handed back as the desired
    configuration exactly when both nibbles of its resolution byte were
    non-zero: every resolution the parser reports is a key of the tables,
    and an unknown resolution makes the call raise. *)
Theorem parsed_status_accepted_iff_nibbles_set
    (message : list byte) (cur new : configuration) (p : port) :
  _parse_status_message message = Ok new ->
  (fst (set_configuration (Some cur) (Some new) p) = Ok tt <->
   Z.shiftr (byte_at message 1) 4 <> 0 /\ Z.land (byte_at message 1) 15 <> 0).
Proof.
  intros Hparse.
  destruct (parse_status_resolutions message new Hparse) as [Hg Ha].
  unfold byte_at in *. set (b := nth 1 message x00) in *.
  destruct (gyro_chain_supported b) as [[Hz Hn]|[Hnz [gc Hgc]]];
    rewrite <- Hg in *.
  - rewrite (set_configuration_gyro_unsupported cur new p Hn). cbn [fst].
    split; [discriminate | intros [H _]; now elim H].
  - destruct (acc_chain_supported b) as [[Hz Hn]|[Hnz' [ac Hac]]];
      rewrite <- Ha in *.
    + rewrite (set_configuration_acc_unsupported cur new p gc Hgc Hn).
      cbn [fst]. split; [discriminate | intros [_ H]; now elim H].
    + rewrite (set_configuration_supported cur new p gc ac Hgc Hac).
      cbn [fst]. split; [intros _; now split | reflexivity].
Qed.

Lemma parsed_status_accepted_witness :
  fst (set_configuration (Some basic_configuration)
         (Some {| magnetometer_enabled := Some true;
                  gyroscope_enabled := Some true;
                  accelerometer_enabled := Some true;
                  gyroscope_resolution := Some 500;
                  accelerometer_resolution := None;
                  low_output_rate := Some true;
                  heading_streaming := false;
                  euler_streaming := false;
                  magnetometer_streaming := false;
                  quaternion_streaming := false;
                  gyroscope_streaming := true;
                  accelerometer_streaming := false |})
         idle_port) = Ok tt <->
  Z.shiftr (byte_at scenario_status 1) 4 <> 0 /\
  Z.land (byte_at scenario_status 1) 15 <> 0.
Proof.
  apply (parsed_status_accepted_iff_nibbles_set scenario_status).
  reflexivity.
Defined.

End StatusIntoReconfiguration.

(** ** The serial driver on a line that delivers frames *)

Section SerialLine.

Import VMU931Driver.

Variable same_object : identity.

Local Abbreviation get_message_loop := (get_message_loop same_object).
Local Abbreviation get_message := (get_message same_object).
Local Abbreviation get_configuration_loop :=
  (get_configuration_loop same_object).
Local Abbreviation get_configuration := (get_configuration same_object).
Local Abbreviation __init__ := (__init__ same_object).

Lemma bind_ok {A B} (m : M A) (k : A -> M B) (p p' : port) (a : A) :
  m p = (Ok a, p') -> bind m k p = k a p'.
Proof. intros H. unfold bind. now rewrite H. Qed.

Lemma bind_raise {A B} (m : M A) (k : A -> M B) (p p' : port) (e : exn) :
  m p = (Raise e, p') -> bind m k p = (Raise e, p').
Proof. intros H. unfold bind. now rewrite H. Qed.

Lemma advance_advance (p : port) (j k : nat) :
  advance (advance p j) k = advance p (j + k).
Proof. unfold advance. cbn. f_equal. lia. Qed.

Lemma advance_0 (p : port) : advance p 0 = p.
Proof. now destruct p. Qed.

Lemma delivers_head (p : port) (b : byte) (rest : list byte) :
  delivers p (b :: rest) -> rx p (pos p) = Some b.
Proof. intros H. exact (H O b eq_refl). Qed.

Lemma delivers_tail (p : port) (b : byte) (rest : list byte) :
  delivers p (b :: rest) -> delivers (advance p 1) rest.
Proof.
  intros H k c Hk. cbn. rewrite Nat.add_succ_r. exact (H (S k) c Hk).
Qed.

Lemma delivers_app_l (p : port) (l1 l2 : list byte) :
  delivers p (l1 ++ l2) -> delivers p l1.
Proof.
  intros H k b Hk. apply H. rewrite nth_error_app1; [exact Hk|].
  apply nth_error_Some. rewrite Hk. discriminate.
Qed.

Lemma delivers_app_r (p : port) (l1 l2 : list byte) :
  delivers p (l1 ++ l2) -> delivers (advance p (List.length l1)) l2.
Proof.
  intros H k b Hk. cbn.
  replace (k + (List.length l1 + pos p))%nat
    with ((List.length l1 + k) + pos p)%nat by lia.
  apply H. rewrite nth_error_app2 by lia.
  now replace (List.length l1 + k - List.length l1)%nat with k by lia.
Qed.

Lemma read_first_byte (p : port) (b : byte) :
  rx p (pos p) = Some b -> read_first p = (Ok b, advance p 1).
Proof.
  intros H. unfold read_first, bind, read.
  change (Z.to_nat 1) with 1%nat. cbn [read_bytes]. now rewrite H.
Qed.

Lemma read_first_timeout (p : port) :
  rx p (pos p) = None -> read_first p = (Raise IndexError, advance p 1).
Proof.
  intros H. unfold read_first, bind, read.
  change (Z.to_nat 1) with 1%nat. cbn [read_bytes]. now rewrite H.
Qed.

Lemma read_bytes_delivers (bs : list byte) :
  forall p, delivers p bs ->
            read_bytes (List.length bs) p = (bs, advance p (List.length bs)).
Proof.
  induction bs as [|b bs IH]; intros p H.
  - cbn. now rewrite advance_0.
  - cbn [List.length read_bytes].
    rewrite (delivers_head _ _ _ H).
    change {| rx := rx p; pos := S (pos p); tx := tx p |}
      with (advance p 1).
    rewrite (IH _ (delivers_tail _ _ _ H)), advance_advance. reflexivity.
Qed.

Lemma read_delivers (bs : list byte) (size : Z) (p : port) :
  delivers p bs -> List.length bs = Z.to_nat size ->
  read size p = (Ok bs, advance p (List.length bs)).
Proof.
  intros H Hsize. unfold read. rewrite <- Hsize.
  now rewrite read_bytes_delivers.
Qed.

(** What the line brings for one frame: the three header bytes, the
    payload the header announces, and the byte at the terminator
    position. *)
Lemma read_frame_bytes (p : port) (L T e : byte) (payload : list byte) :
  delivers p (x01 :: L :: T :: payload ++ [e]) ->
  List.length payload = Z.to_nat (ord L - 4) ->
  read_first p = (Ok x01, advance p 1) /\
  read_first (advance p 1) = (Ok L, advance p 2) /\
  read_first (advance p 2) = (Ok T, advance p 3) /\
  read (ord L - 4) (advance p 3)
  = (Ok payload, advance p (3 + List.length payload)) /\
  read_first (advance p (3 + List.length payload))
  = (Ok e, advance p (4 + List.length payload)).
Proof.
  intros H Hsize.
  assert (H1 : delivers (advance p 1) (L :: T :: payload ++ [e]))
    by exact (delivers_tail _ _ _ H).
  assert (H2 : delivers (advance p 2) (T :: payload ++ [e])).
  { pose proof (delivers_tail _ _ _ H1) as X.
    rewrite advance_advance in X. exact X. }
  assert (H3 : delivers (advance p 3) (payload ++ [e])).
  { pose proof (delivers_tail _ _ _ H2) as X.
    rewrite advance_advance in X. exact X. }
  assert (H4 : delivers (advance p (3 + List.length payload)) [e]).
  { pose proof (delivers_app_r _ _ _ H3) as X.
    rewrite advance_advance in X. exact X. }
  repeat split.
  - apply read_first_byte. exact (delivers_head _ _ _ H).
  - rewrite (read_first_byte _ L (delivers_head _ _ _ H1)).
    now rewrite advance_advance.
  - rewrite (read_first_byte _ T (delivers_head _ _ _ H2)).
    now rewrite advance_advance.
  - rewrite (read_delivers payload _ _ (delivers_app_l _ _ _ H3) Hsize).
    now rewrite advance_advance.
  - rewrite (read_first_byte _ e (delivers_head _ _ _ H4)).
    rewrite advance_advance. do 2 f_equal. lia.
Qed.

Lemma not_marker (c : byte) : c <> x01 -> (ord c =? 1) = false.
Proof.
  intros Hc. destruct (ord c =? 1) eqn:E; [|reflexivity].
  exfalso. apply Hc. apply ord_eqb. exact E.
Qed.

Lemma get_message_loop_garbage (fuel : nat) (wanted : ascii) (p : port)
    (c : byte) :
  rx p (pos p) = Some c -> c <> x01 ->
  get_message_loop (S fuel) wanted p
  = get_message_loop fuel wanted (advance p 1).
Proof.
  intros H Hc. cbn [get_message_loop]. cbv zeta.
  rewrite (bind_ok _ _ _ _ _ (read_first_byte p c H)).
  now rewrite (not_marker c Hc).
Qed.

Lemma get_message_loop_garbage_run (wanted : ascii) (pre : list byte) :
  Forall (fun b => b <> x01) pre ->
  forall (fuel : nat) (p : port),
    delivers p pre ->
    get_message_loop (List.length pre + fuel) wanted p
    = get_message_loop fuel wanted (advance p (List.length pre)).
Proof.
  induction 1 as [|c pre Hc _ IH]; intros fuel p H.
  - cbn. now rewrite advance_0.
  - cbn [List.length Nat.add].
    rewrite (get_message_loop_garbage _ _ _ c (delivers_head _ _ _ H) Hc).
    rewrite (IH fuel _ (delivers_tail _ _ _ H)), advance_advance.
    reflexivity.
Qed.

Lemma get_message_loop_timeout (fuel : nat) (wanted : ascii) (p : port) :
  rx p (pos p) = None ->
  get_message_loop (S fuel) wanted p
  = Some (Raise IndexError, advance p 1).
Proof.
  intros H. cbn [get_message_loop]. cbv zeta.
  now rewrite (bind_raise _ _ _ _ _ (read_first_timeout p H)).
Qed.

Lemma get_message_loop_frame (fuel : nat) (wanted : ascii) (p : port)
    (L T e : byte) (payload : list byte) :
  delivers p (x01 :: L :: T :: payload ++ [e]) ->
  List.length payload = Z.to_nat (ord L - 4) ->
  get_message_loop (S fuel) wanted p =
    if (ord e =? 4) && same_object (chr T) wanted then
      match decode_motion payload with
      | Ok t => Some (Ok t, advance p (4 + List.length payload))
      | Raise err => Some (Raise err, advance p (4 + List.length payload))
      end
    else get_message_loop fuel wanted (advance p (4 + List.length payload)).
Proof.
  intros H Hsize.
  destruct (read_frame_bytes p L T e payload H Hsize)
    as (R0 & R1 & R2 & R3 & R4).
  cbn [get_message_loop]. cbv zeta.
  rewrite (bind_ok _ _ _ _ _ R0). change (ord x01 =? 1) with true.
  cbn [negb].
  rewrite (bind_ok _ _ _ _ _ R1), (bind_ok _ _ _ _ _ R2),
    (bind_ok _ _ _ _ _ R3), (bind_ok _ _ _ _ _ R4).
  destruct (ord e =? 4); cbn [negb andb]; [|reflexivity].
  destruct (same_object (chr T) wanted); cbn [negb]; [|reflexivity].
  destruct (decode_motion payload); reflexivity.
Qed.

Lemma payload_length (L : byte) (payload : list byte) :
  ord L = len payload + 4 -> List.length payload = Z.to_nat (ord L - 4).
Proof. unfold len. lia. Qed.

(** *** [get_message] *)

(** On a line that delivers bytes other than 0x01 and then a frame of
    the wanted type, with a tag the interpreter finds identical to the
    wanted one, the call ends the way the decoding of the payload ends (a
    tuple, or [struct.error] for a payload of fewer than 16 bytes) and has
    consumed exactly the bytes up to the terminator.  No minimum number of
    bytes after the start marker is needed here. *)
Theorem get_message_returns_frame_after_garbage
    (fuel : nat) (m_type : string) (L T : byte)
    (pre payload : list byte) (p : port) :
  getitem message_types m_type = Ok (chr T) ->
  same_object (chr T) (chr T) = true ->
  Forall (fun b => b <> x01) pre ->
  delivers p (pre ++ frame L T payload) ->
  ord L = len payload + 4 ->
  (List.length pre < fuel)%nat ->
  get_message fuel m_type p
  = Some (decode_motion payload,
          advance p (List.length pre + (4 + List.length payload))).
Proof.
  intros Htag Hsame Hpre H HL Hfuel. unfold get_message. rewrite Htag.
  replace fuel with (List.length pre + S (fuel - List.length pre - 1))%nat
    by lia.
  rewrite (get_message_loop_garbage_run _ pre Hpre _ _
             (delivers_app_l _ _ _ H)).
  rewrite (get_message_loop_frame _ _ _ L T x04 payload
             (delivers_app_r _ _ _ H) (payload_length _ _ HL)).
  change (ord x04 =? 4) with true. rewrite Hsame. cbn [andb].
  rewrite advance_advance.
  destruct (decode_motion payload); reflexivity.
Qed.

(** A well-delimited span that is not the wanted frame (its terminator
    position holds another byte than 0x04, or its type is another one)
    is consumed whole, the byte at the terminator position included, and
    the wait for a start marker goes on with the byte after it, whatever
    the interpreter decides about the identity of strings. *)
Theorem get_message_skips_unwanted_frame
    (fuel : nat) (m_type : string) (wanted : ascii) (L T e : byte)
    (payload : list byte) (p : port) :
  sound same_object ->
  getitem message_types m_type = Ok wanted ->
  delivers p (x01 :: L :: T :: payload ++ [e]) ->
  List.length payload = Z.to_nat (ord L - 4) ->
  e <> x04 \/ chr T <> wanted ->
  get_message (S fuel) m_type p
  = get_message fuel m_type (advance p (4 + List.length payload)).
Proof.
  intros Hsound Htag H Hsize Hunwanted. unfold get_message. rewrite Htag.
  rewrite (get_message_loop_frame _ _ _ L T e payload H Hsize).
  replace ((ord e =? 4) && same_object (chr T) wanted) with false;
    [reflexivity|].
  symmetry. apply andb_false_iff.
  destruct Hunwanted as [He|HT].
  - left. destruct (ord e =? 4) eqn:E; [|reflexivity].
    exfalso. apply He. apply ord_eqb. exact E.
  - right. destruct (same_object (chr T) wanted) eqn:E; [|reflexivity].
    exfalso. apply HT. apply Hsound. exact E.
Qed.

(** A read that times out while the call waits for a start marker ends
    it with IndexError: the empty read is subscripted. *)
Theorem get_message_timeout_raises_index_error
    (fuel : nat) (m_type : string) (wanted : ascii)
    (pre : list byte) (p : port) :
  getitem message_types m_type = Ok wanted ->
  Forall (fun b => b <> x01) pre ->
  delivers p pre ->
  rx p (List.length pre + pos p) = None ->
  (List.length pre < fuel)%nat ->
  get_message fuel m_type p
  = Some (Raise IndexError, advance p (S (List.length pre))).
Proof.
  intros Htag Hpre H Hsilent Hfuel. unfold get_message. rewrite Htag.
  replace fuel with (List.length pre + S (fuel - List.length pre - 1))%nat
    by lia.
  rewrite (get_message_loop_garbage_run _ pre Hpre _ _ H).
  rewrite get_message_loop_timeout by exact Hsilent.
  rewrite advance_advance. do 3 f_equal. lia.
Qed.

(** *** [get_configuration] and [__init__] *)

Lemma ask_step (asked : bool) (p : port) :
  (if asked then ret tt else _ask_for_status) p = (Ok tt, asked_port asked p).
Proof. destruct asked; reflexivity. Qed.

Lemma delivers_asked (asked : bool) (p : port) (bs : list byte) :
  delivers p bs -> delivers (asked_port asked p) bs.
Proof. destruct asked; intros H; exact H. Qed.

Lemma get_configuration_loop_garbage (fuel : nat) (asked : bool) (p : port)
    (c : byte) :
  rx p (pos p) = Some c -> c <> x01 ->
  get_configuration_loop (S fuel) asked p
  = get_configuration_loop fuel true (advance (asked_port asked p) 1).
Proof.
  intros H Hc. cbn [get_configuration_loop]. cbv zeta.
  rewrite (bind_ok _ _ _ _ _ (ask_step asked p)).
  assert (H' : rx (asked_port asked p) (pos (asked_port asked p)) = Some c)
    by (destruct asked; exact H).
  rewrite (bind_ok _ _ _ _ _ (read_first_byte _ c H')).
  now rewrite (not_marker c Hc).
Qed.

Lemma get_configuration_loop_garbage_run (pre : list byte) :
  Forall (fun b => b <> x01) pre ->
  forall (fuel : nat) (p : port),
    delivers p pre ->
    get_configuration_loop (List.length pre + fuel) true p
    = get_configuration_loop fuel true (advance p (List.length pre)).
Proof.
  induction 1 as [|c pre Hc _ IH]; intros fuel p H.
  - cbn. now rewrite advance_0.
  - cbn [List.length Nat.add].
    rewrite (get_configuration_loop_garbage _ true _ c
               (delivers_head _ _ _ H) Hc).
    cbn [asked_port].
    rewrite (IH fuel _ (delivers_tail _ _ _ H)), advance_advance.
    reflexivity.
Qed.

Lemma get_configuration_loop_frame (fuel : nat) (asked : bool) (p : port)
    (L T e : byte) (payload : list byte) :
  delivers p (x01 :: L :: T :: payload ++ [e]) ->
  List.length payload = Z.to_nat (ord L - 4) ->
  get_configuration_loop (S fuel) asked p =
    let p' := advance (asked_port asked p) (4 + List.length payload) in
    if (ord e =? 4) && same_object (chr T) "s"%char then
      Some (_parse_status_message payload, p')
    else get_configuration_loop fuel false p'.
Proof.
  intros H Hsize. cbv zeta.
  destruct (read_frame_bytes _ L T e payload
              (delivers_asked asked _ _ H) Hsize)
    as (R0 & R1 & R2 & R3 & R4).
  cbn [get_configuration_loop]. cbv zeta.
  rewrite (bind_ok _ _ _ _ _ (ask_step asked p)).
  rewrite (bind_ok _ _ _ _ _ R0). change (ord x01 =? 1) with true.
  cbn [negb].
  rewrite (bind_ok _ _ _ _ _ R1), (bind_ok _ _ _ _ _ R2),
    (bind_ok _ _ _ _ _ R3), (bind_ok _ _ _ _ _ R4).
  destruct (ord e =? 4); cbn [negb andb]; [|reflexivity].
  destruct (same_object (chr T) "s"%char); [|reflexivity].
  destruct (_parse_status_message payload); reflexivity.
Qed.

Lemma get_configuration_loop_zero_line :
  forall (fuel : nat) (asked : bool) (n : nat) (written : list string),
    get_configuration_loop fuel asked (zero_line n written) = None.
Proof.
  induction fuel as [|fuel IH]; intros asked n written; [reflexivity|].
  rewrite (get_configuration_loop_garbage _ asked _ x00);
    [|reflexivity|discriminate].
  destruct asked.
  - exact (IH true (S n) written).
  - exact (IH true (S n) (written ++ ["vars"%string])).
Qed.

(** Like [get_message], the call has no cap: on a line that delivers
    0x00 forever it neither returns nor raises, however many turns it is
    given. *)
Theorem get_configuration_never_ends_on_zero_line (fuel : nat) :
  get_configuration fuel (zero_line 0 []) = None.
Proof. apply get_configuration_loop_zero_line. Qed.

Lemma get_configuration_loop_timeout (fuel : nat) (asked : bool) (p : port) :
  rx p (pos p) = None ->
  get_configuration_loop (S fuel) asked p
  = Some (Raise IndexError, advance (asked_port asked p) 1).
Proof.
  intros H. cbn [get_configuration_loop]. cbv zeta.
  rewrite (bind_ok _ _ _ _ _ (ask_step asked p)).
  assert (H' : rx (asked_port asked p) (pos (asked_port asked p)) = None)
    by (destruct asked; exact H).
  now rewrite (bind_raise _ _ _ _ _ (read_first_timeout _ H')).
Qed.

(** A complete span that does not pass the tests (its terminator
    position holds another byte than 0x04, or the interpreter does not
    find its type tag identical to ['s'], which is so for every other
    type) does not end the call: the outer loop starts again and the
    status request is written a second time before the next read.  When
    that read times out the call ends with IndexError. *)
Theorem get_configuration_asks_again_after_other_frame
    (fuel : nat) (L T e : byte) (payload : list byte) (p : port) :
  delivers p (x01 :: L :: T :: payload ++ [e]) ->
  List.length payload = Z.to_nat (ord L - 4) ->
  e <> x04 \/ same_object (chr T) "s"%char = false ->
  rx p (4 + List.length payload + pos p) = None ->
  get_configuration (S (S fuel)) p
  = Some (Raise IndexError,
          {| rx := rx p;
             pos := 5 + List.length payload + pos p;
             tx := tx p ++ ["vars"; "vars"]%string |}).
Proof.
  intros H Hsize Hfail Hsilent. unfold get_configuration.
  rewrite (get_configuration_loop_frame _ false _ L T e payload H Hsize).
  cbv zeta.
  replace ((ord e =? 4) && same_object (chr T) "s"%char) with false.
  - rewrite get_configuration_loop_timeout by exact Hsilent.
    do 2 f_equal. unfold asked_port, advance, sent. cbn [rx pos tx].
    f_equal; solve [lia | now rewrite <- app_assoc].
  - symmetry. apply andb_false_iff. destruct Hfail as [He|HT].
    + left. destruct (ord e =? 4) eqn:E; [|reflexivity].
      exfalso. apply He. apply ord_eqb. exact E.
    + right. exact HT.
Qed.

(** *** Tags that are equal but not identical *)

Ltac split_turn H :=
  repeat match type of H with
         | context [match ?x with _ => _ end] => destruct x eqn:?
         end.

Lemma get_message_loop_no_tuple (wanted : ascii) :
  (forall a, same_object a wanted = false) ->
  forall (fuel : nat) (p p' : port) (r : result motion),
    get_message_loop fuel wanted p = Some (r, p') ->
    exists e, r = Raise e.
Proof.
  intros Hnot. induction fuel as [|fuel IH]; intros p p' r H;
    [discriminate|].
  cbn [get_message_loop] in H. cbv zeta in H.
  match type of H with
  | context [match ?x with _ => _ end] =>
      destruct x as [[[t|]|e] q] eqn:Hturn
  end.
  - exfalso. unfold bind, ret, raise in Hturn.
    split_turn Hturn; rewrite ?Hnot in *; cbn [negb] in *; congruence.
  - exact (IH _ _ _ H).
  - injection H as <- <-. eauto.
Qed.

Lemma get_configuration_loop_no_status :
  (forall a, same_object a "s"%char = false) ->
  forall (fuel : nat) (asked : bool) (p p' : port)
         (r : result configuration),
    get_configuration_loop fuel asked p = Some (r, p') ->
    exists e, r = Raise e.
Proof.
  intros Hnot. induction fuel as [|fuel IH]; intros asked p p' r H;
    [discriminate|].
  cbn [get_configuration_loop] in H. cbv zeta in H.
  match type of H with
  | context [match ?x with _ => _ end] =>
      destruct x as [[[| |status]|e] q] eqn:Hturn
  end.
  - exact (IH _ _ _ _ H).
  - exact (IH _ _ _ _ H).
  - exfalso. unfold bind, ret, raise in Hturn.
    split_turn Hturn; rewrite ?Hnot in *; cbn [negb] in *; congruence.
  - injection H as <- <-. eauto.
Qed.

(** When the interpreter does not find the string [chr] builds for the
    wanted tag to be the object the dict holds for it (on CPython 3.11
    this is so for euler, magnet and accel), the call never returns a
    tuple: every frame is skipped and the call can only end with an
    exception. *)
Theorem get_message_returns_no_tuple_without_identity
    (fuel : nat) (m_type : string) (tag : ascii) (p p' : port)
    (r : result motion) :
  sound same_object ->
  getitem message_types m_type = Ok tag ->
  same_object tag tag = false ->
  get_message fuel m_type p = Some (r, p') ->
  exists e, r = Raise e.
Proof.
  intros Hsound Htag Hnot H. unfold get_message in H. rewrite Htag in H.
  exact (get_message_loop_no_tuple tag (never_same same_object tag Hsound Hnot)
           fuel p p' r H).
Qed.

(** When the interpreter does not find the string [chr] builds for 0x73
    to be the object of the literal ['s'] (so it is on CPython 3.11), the
    call never returns a configuration: status frames are skipped like
    any other frame and the call can only end with an exception. *)
Theorem get_configuration_returns_no_status_without_identity
    (fuel : nat) (p p' : port) (r : result configuration) :
  sound same_object ->
  same_object "s"%char "s"%char = false ->
  get_configuration fuel p = Some (r, p') ->
  exists e, r = Raise e.
Proof.
  intros Hsound Hnot H.
  exact (get_configuration_loop_no_status (never_same same_object "s"%char Hsound Hnot)
           fuel false p p' r H).
Qed.

(** On such an interpreter the constructor never completes: it ends
    with the exception that ends [get_configuration], and
    [set_configuration] is never reached. *)
Theorem init_never_completes_without_identity
    (fuel : nat) (p p' : port) (r : result unit) :
  sound same_object ->
  same_object "s"%char "s"%char = false ->
  __init__ fuel p = Some (r, p') ->
  exists e, r = Raise e /\ get_configuration fuel p = Some (Raise e, p').
Proof.
  intros Hsound Hnot H. unfold __init__ in H.
  destruct (get_configuration fuel p) as [[[status|e] q]|] eqn:E;
    try discriminate.
  - destruct (get_configuration_loop_no_status (never_same same_object "s"%char Hsound Hnot)
                fuel false p q (Ok status) E) as [e He].
    discriminate.
  - injection H as <- <-. eauto.
Qed.

End SerialLine.

Section SerialLineRuns.

Import VMU931Driver.

Local Abbreviation get_message_loop := (get_message_loop cpython311).
Local Abbreviation get_message := (get_message cpython311).
Local Abbreviation get_configuration_loop :=
  (get_configuration_loop cpython311).
Local Abbreviation get_configuration := (get_configuration cpython311).
Local Abbreviation __init__ := (__init__ cpython311).

Lemma get_message_returns_frame_witness :
  get_message 3 "gyro"
    {| rx := fun k =>
               nth_error
                 ([x00; x07] ++
                  frame x14 x67
                    [x00; x00; x03; xe8; x3f; xc0; x00; x00;
                     xc0; x10; x00; x00; x00; x00; x00; x00]) k;
       pos := 0; tx := [] |}
  = Some (decode_motion
            [x00; x00; x03; xe8; x3f; xc0; x00; x00;
             xc0; x10; x00; x00; x00; x00; x00; x00],
          advance
            {| rx := fun k =>
                       nth_error
                         ([x00; x07] ++
                          frame x14 x67
                            [x00; x00; x03; xe8; x3f; xc0; x00; x00;
                             xc0; x10; x00; x00; x00; x00; x00; x00]) k;
               pos := 0; tx := [] |} 22).
Proof.
  apply (get_message_returns_frame_after_garbage cpython311 3 "gyro" x14 x67
           [x00; x07]
           [x00; x00; x03; xe8; x3f; xc0; x00; x00;
            xc0; x10; x00; x00; x00; x00; x00; x00]).
  - reflexivity.
  - reflexivity.
  - repeat constructor; discriminate.
  - intros k b Hk. cbn [rx pos]. rewrite Nat.add_0_r. exact Hk.
  - reflexivity.
  - cbn. lia.
Defined.

Lemma get_message_skips_unwanted_frame_witness :
  get_message 2 "gyro"
    {| rx := fun k => nth_error [x01; x05; x65; xaa; x04] k;
       pos := 0; tx := [] |}
  = get_message 1 "gyro"
      (advance
         {| rx := fun k => nth_error [x01; x05; x65; xaa; x04] k;
            pos := 0; tx := [] |} 5).
Proof.
  apply (get_message_skips_unwanted_frame cpython311 1 "gyro" "g"%char
           x05 x65 x04 [xaa]).
  - exact cpython311_sound.
  - reflexivity.
  - intros k b Hk. cbn [rx pos]. rewrite Nat.add_0_r. exact Hk.
  - reflexivity.
  - right. discriminate.
Defined.

Lemma get_message_timeout_witness :
  get_message 1 "gyro" idle_port
  = Some (Raise IndexError, advance idle_port 1).
Proof.
  apply (get_message_timeout_raises_index_error cpython311 1 "gyro"
           "g"%char []).
  - reflexivity.
  - constructor.
  - intros k b Hk. destruct k; discriminate Hk.
  - reflexivity.
  - cbn. lia.
Defined.

Lemma get_configuration_asks_again_witness :
  get_configuration 2
    {| rx := fun k => nth_error (frame x0b x73 scenario_status) k;
       pos := 0; tx := [] |}
  = Some (Raise IndexError,
          {| rx := fun k => nth_error (frame x0b x73 scenario_status) k;
             pos := 12; tx := ["vars"; "vars"]%string |}).
Proof.
  apply (get_configuration_asks_again_after_other_frame cpython311 0
           x0b x73 x04 scenario_status
           {| rx := fun k => nth_error (frame x0b x73 scenario_status) k;
              pos := 0; tx := [] |}).
  - intros k b Hk. cbn [rx pos]. rewrite Nat.add_0_r. exact Hk.
  - reflexivity.
  - right. reflexivity.
  - reflexivity.
Defined.

Lemma get_message_no_tuple_without_identity_witness :
  exists e, (Raise IndexError : result motion) = Raise e.
Proof.
  apply (get_message_returns_no_tuple_without_identity cpython311 2
           "euler" "e"%char
           {| rx := fun k =>
                      nth_error
                        (frame x14 x65
                           [x00; x00; x03; xe8; x3f; xc0; x00; x00;
                            xc0; x10; x00; x00; x00; x00; x00; x00]) k;
              pos := 0; tx := [] |}
           {| rx := fun k =>
                      nth_error
                        (frame x14 x65
                           [x00; x00; x03; xe8; x3f; xc0; x00; x00;
                            xc0; x10; x00; x00; x00; x00; x00; x00]) k;
              pos := 21; tx := [] |}).
  - exact cpython311_sound.
  - reflexivity.
  - reflexivity.
  - vm_compute. reflexivity.
Defined.

Lemma get_configuration_no_status_without_identity_witness :
  exists e, (Raise IndexError : result VMU931Driver.configuration) = Raise e.
Proof.
  apply (get_configuration_returns_no_status_without_identity cpython311 2
           {| rx := fun k => nth_error (frame x0b x73 scenario_status) k;
              pos := 0; tx := [] |}
           {| rx := fun k => nth_error (frame x0b x73 scenario_status) k;
              pos := 12; tx := ["vars"; "vars"]%string |}).
  - exact cpython311_sound.
  - reflexivity.
  - vm_compute. reflexivity.
Defined.

Lemma init_never_completes_witness :
  exists e,
    (Raise IndexError : result unit) = Raise e /\
    get_configuration 2
      {| rx := fun k => nth_error (frame x0b x73 scenario_status) k;
         pos := 0; tx := [] |}
    = Some (Raise e,
            {| rx := fun k => nth_error (frame x0b x73 scenario_status) k;
               pos := 12; tx := ["vars"; "vars"]%string |}).
Proof.
  apply (init_never_completes_without_identity cpython311 2
           {| rx := fun k => nth_error (frame x0b x73 scenario_status) k;
              pos := 0; tx := [] |}
           {| rx := fun k => nth_error (frame x0b x73 scenario_status) k;
              pos := 12; tx := ["vars"; "vars"]%string |}).
  - exact cpython311_sound.
  - reflexivity.
  - vm_compute. reflexivity.
Defined.

End SerialLineRuns.
